(** * Mixer-SNN: the training driver [train_snn_mixer.py]

    A shallow embedding of [Trainer] (argument record, optimizer and
    learning-rate-schedule setup, run-directory naming, the per-batch
    training and evaluation passes, the epoch loop with checkpointing and
    resume) and the properties of it that the specification states.

    Conventions.
    - Python [int] is [Z]; Python [float] is the kernel's binary64 [float];
      Python [str] is [string], read as its UTF-8 bytes.
    - The deep-learning framework ([torch], [spikingjelly]) is outside the
      repository.  Its mutable objects (module, optimizer, scheduler,
      gradient scaler, generators) form one opaque run-time state, and
      every framework call is an operation of the [Backend] interface.
    - An exception is a value of [exn]; code that may raise returns a
      [result]. *)

From Stdlib Require Import ZArith List Bool Ascii String Floats Lia.
From stdpp Require Import base gmap strings pretty list.

#[local] Set Warnings "-inexact-float".
#[local] Open Scope string_scope.
#[local] Open Scope Z_scope.
#[local] Open Scope list_scope.

(** ** Exceptions *)

Inductive exn : Type :=
| NotImplementedError (msg : string)
| FileExistsError (path : string)
| FileNotFoundError (path : string)
| UnpicklingError (path : string)
| KeyError (key : string)
| ValueError (msg : string).

Inductive result (A : Type) : Type :=
| Ok (a : A)
| Raise (e : exn).
Arguments Ok {A} a.
Arguments Raise {A} e.

Definition rbind {A B} (m : result A) (k : A -> result B) : result B :=
  match m with
  | Ok a => k a
  | Raise e => Raise e
  end.

Declare Scope result_scope.
Delimit Scope result_scope with result.
Notation "'let*' x ':=' m 'in' k" := (rbind m (fun x => k))
  (at level 10, x pattern, m at level 100, k at level 200) : result_scope.

Definition is_not_None {A} (o : option A) : bool :=
  match o with Some _ => true | None => false end.

Definition raises {A} (m : result A) : Prop := exists e, m = Raise e.
Definition succeeds {A} (m : result A) : Prop := exists a, m = Ok a.

(** ** Strings *)

(** [str.lower()].  On the bytes of a string it maps [A]..[Z] to [a]..[z]
    and leaves every other byte alone; the names the trainer compares
    against are ASCII, and no non-ASCII character lower-cases to an ASCII
    letter of those names. *)
Definition is_upper (c : ascii) : bool :=
  (65 <=? nat_of_ascii c)%nat && (nat_of_ascii c <=? 90)%nat.

Definition lower_ascii (c : ascii) : ascii :=
  if is_upper c then ascii_of_nat (nat_of_ascii c + 32) else c.

Fixpoint lower (s : string) : string :=
  match s with
  | EmptyString => EmptyString
  | String c s' => String (lower_ascii c) (lower s')
  end.

(** [os.path.join] on a POSIX system, two components at a time. *)
Definition starts_with_sep (s : string) : bool :=
  match s with
  | String c _ => Ascii.eqb c "/"
  | EmptyString => false
  end.

Fixpoint ends_with_sep (s : string) : bool :=
  match s with
  | EmptyString => false
  | String c EmptyString => Ascii.eqb c "/"
  | String _ s' => ends_with_sep s'
  end.

Definition path_join (a b : string) : string :=
  if starts_with_sep b then b
  else if (String.eqb a "" || ends_with_sep a)%bool then a +:+ b
  else a +:+ "/" +:+ b.

Definition path_join3 (a b c : string) : string :=
  path_join (path_join a b) c.

(** ** The argument record built by [get_args_parser] *)

Record Args : Type := mkArgs {
  data_path : string;
  model : string;
  T : Z;
  cupy : bool;
  device : string;
  batch_size : Z;
  epochs : Z;
  workers : Z;
  opt : string;
  lr : float;
  momentum : float;
  weight_decay : float;
  lr_scheduler : string;
  lr_warmup_epochs : Z;
  lr_warmup_method : string;
  lr_warmup_decay : float;
  lr_step_size : Z;
  lr_gamma : float;
  output_dir : string;
  resume : option string;
  start_epoch : Z;
  world_size : Z;
  dist_url : string;
  seed : Z;
  amp : bool;
  clip_grad_norm : option float;
  local_rank : option Z;
  sync_bn : bool;
  (* set by [utils.init_distributed_mode] and by [main] *)
  distributed : bool;
  num_classes : Z
}.

(** The parser's defaults. *)
Definition default_args : Args := {|
  data_path := "./data"; model := "mixer"; T := 4; cupy := false;
  device := "cuda"; batch_size := 32; epochs := 90; workers := 16;
  opt := "sgd"; lr := 0.1%float; momentum := 0.9%float;
  weight_decay := 0%float; lr_scheduler := "cosa"; lr_warmup_epochs := 10;
  lr_warmup_method := "linear"; lr_warmup_decay := 0.01%float;
  lr_step_size := 30; lr_gamma := 0.1%float; output_dir := "./logs";
  resume := None; start_epoch := 0; world_size := 1; dist_url := "env://";
  seed := 42; amp := false; clip_grad_norm := None; local_rank := None;
  sync_bn := false; distributed := false; num_classes := 10
|}.

(** [args.start_epoch = e] and [args.num_classes = n]. *)
Definition set_start_epoch (e : Z) (a : Args) : Args :=
  mkArgs (data_path a) (model a) (T a) (cupy a) (device a) (batch_size a)
    (epochs a) (workers a) (opt a) (lr a) (momentum a) (weight_decay a)
    (lr_scheduler a) (lr_warmup_epochs a) (lr_warmup_method a)
    (lr_warmup_decay a) (lr_step_size a) (lr_gamma a) (output_dir a)
    (resume a) e (world_size a) (dist_url a) (seed a) (amp a)
    (clip_grad_norm a) (local_rank a) (sync_bn a) (distributed a)
    (num_classes a).

Definition set_num_classes (n : Z) (a : Args) : Args :=
  mkArgs (data_path a) (model a) (T a) (cupy a) (device a) (batch_size a)
    (epochs a) (workers a) (opt a) (lr a) (momentum a) (weight_decay a)
    (lr_scheduler a) (lr_warmup_epochs a) (lr_warmup_method a)
    (lr_warmup_decay a) (lr_step_size a) (lr_gamma a) (output_dir a)
    (resume a) (start_epoch a) (world_size a) (dist_url a) (seed a) (amp a)
    (clip_grad_norm a) (local_rank a) (sync_bn a) (distributed a) n.

(** ** What [set_optimizer] and [set_lr_scheduler] ask for *)

(** The constructor call of [torch.optim] or [torch.optim.lr_scheduler]
    the trainer makes, with its arguments. *)
Inductive OptimizerSpec : Type :=
| SGD (lr momentum weight_decay : float)
| AdamW (lr weight_decay : float).

Inductive SchedulerSpec : Type :=
| StepLR (step_size : Z) (gamma : float)
| CosineAnnealingLR (T_max : Z)
| ExponentialLR (gamma : float)
| LinearLR (start_factor : float) (total_iters : Z)
| ConstantLR (factor : float) (total_iters : Z)
| SequentialLR (warmup main : SchedulerSpec) (milestone : Z).

(** ** Names, as the specification speaks of them

    "Case-insensitive" membership, written without [lower]: two characters
    match when they are equal or are the two cases of one letter. *)
Definition spec_same_letter (c d : ascii) : bool :=
  let m := nat_of_ascii c in
  let n := nat_of_ascii d in
  (m =? n)%nat
  || ((65 <=? m)%nat && (m <=? 90)%nat && (n =? m + 32)%nat)
  || ((65 <=? n)%nat && (n <=? 90)%nat && (m =? n + 32)%nat).

Fixpoint spec_same_name (a b : string) : bool :=
  match a, b with
  | EmptyString, EmptyString => true
  | String c a', String d b' => spec_same_letter c d && spec_same_name a' b'
  | _, _ => false
  end.

Definition spec_name_in (names : list string) (given : string) : bool :=
  existsb (spec_same_name given) names.

Definition optimizer_names : list string := ["sgd"; "adamw"].
Definition scheduler_names : list string := ["step"; "cosa"; "exp"].
Definition warmup_names : list string := ["linear"; "constant"].

(** ** [get_logdir_name] *)

Section Naming.
(** [str] of a Python float (the shortest string that reads back to the
    same float): a function of the interpreter, taken as given. *)
Variable float_str : float -> string.

Definition get_logdir_name (args : Args) : string :=
  model args +:+ "_b" +:+ pretty (batch_size args)
    +:+ "_e" +:+ pretty (epochs args)
    +:+ "_" +:+ opt args +:+ "_lr" +:+ float_str (lr args)
    +:+ "_wd" +:+ float_str (weight_decay args)
    +:+ "_seed" +:+ pretty (seed args).

Definition pt_dir (args : Args) : string :=
  path_join3 (output_dir args) (get_logdir_name args) "pt".
Definition tb_dir (args : Args) : string :=
  path_join3 (output_dir args) (get_logdir_name args) "tb".
Definition args_txt (args : Args) : string :=
  path_join3 (output_dir args) (get_logdir_name args) "args.txt".
Definition checkpoint_latest (args : Args) : string :=
  path_join (pt_dir args) "checkpoint_latest.pth".
Definition checkpoint_max_test_acc1 (args : Args) : string :=
  path_join (pt_dir args) "checkpoint_max_test_acc1.pth".
End Naming.

(** ** The framework interface *)

(** The context a forward pass runs in: [torch.cuda.amp.autocast(enabled)]
    in training, [torch.inference_mode()] in evaluation. *)
Inductive ForwardCtx : Type :=
| Autocast (enabled : bool)
| InferenceMode.

Class Backend : Type := {
  tensor : Type;
  (** every mutable framework object of the run: the module with its
      parameters, buffers, gradients and neuron state, the optimizer, the
      scheduler, the gradient scaler, the random generators *)
  runtime : Type;
  model_sd : Type;
  optimizer_sd : Type;
  lr_scheduler_sd : Type;
  scaler_sd : Type;
  (** [utils.MetricLogger] *)
  metric_logger : Type;

  one_hot : Z -> tensor -> tensor;
  unsqueeze_repeat : Z -> tensor -> tensor;
  mean0 : tensor -> tensor;
  shape0 : tensor -> Z;
  item : tensor -> float;
  mse_loss : tensor -> tensor -> tensor;
  accuracy_1_5 : tensor -> tensor -> tensor * tensor;

  (** [set_deterministic(args.seed)] *)
  seed_all : Z -> runtime -> runtime;
  (** [torch.device(args.device)] *)
  select_device : string -> runtime -> runtime;
  (** [load_data] and the two [DataLoader]s: the datasets (with
      [download=True], on every process), the samplers, the loaders.  What
      the download leaves under [data_path] belongs to this state, not to
      the files of the run. *)
  load_data : Args -> runtime -> runtime;
  (** the module: [load_model], [model.to(device)], the [sync_bn]
      conversion, the criterion and the [DistributedDataParallel] wrapper *)
  build_model : Args -> runtime -> runtime;
  (** The argument checks of the constructors: the exception
      [torch.optim.SGD], [AdamW] or a scheduler class raises for these
      arguments, if it raises one (a [ValueError] for a value out of
      range). *)
  optimizer_error : OptimizerSpec -> option exn;
  scheduler_error : SchedulerSpec -> option exn;
  build_optimizer : OptimizerSpec -> runtime -> runtime;
  build_scaler : runtime -> runtime;
  build_lr_scheduler : SchedulerSpec -> runtime -> runtime;
  poisson_encode : tensor -> runtime -> tensor * runtime;
  forward : ForwardCtx -> tensor -> runtime -> tensor * runtime;
  model_train : runtime -> runtime;
  model_eval : runtime -> runtime;
  zero_grad : runtime -> runtime;
  backward : tensor -> runtime -> runtime;
  scaler_scale : tensor -> runtime -> tensor;
  scaler_unscale_ : runtime -> runtime;
  clip_grad_norm_ : float -> runtime -> runtime;
  scaler_step : runtime -> runtime;
  scaler_update : runtime -> runtime;
  optimizer_step : runtime -> runtime;
  reset_net : runtime -> runtime;
  lr_scheduler_step : runtime -> runtime;
  sampler_set_epoch : Z -> runtime -> runtime;
  current_lr : runtime -> float;

  model_state_dict : runtime -> model_sd;
  optimizer_state_dict : runtime -> optimizer_sd;
  lr_scheduler_state_dict : runtime -> lr_scheduler_sd;
  scaler_state_dict : runtime -> scaler_sd;
  model_load_state_dict : model_sd -> runtime -> runtime;
  optimizer_load_state_dict : optimizer_sd -> runtime -> runtime;
  lr_scheduler_load_state_dict : lr_scheduler_sd -> runtime -> runtime;
  scaler_load_state_dict : scaler_sd -> runtime -> runtime;

  ml_new : metric_logger;
  ml_update : string -> float -> Z -> metric_logger -> metric_logger;
  ml_synchronize : metric_logger -> metric_logger;
  ml_global_avg : string -> metric_logger -> float
}.

(** What one process of a run is given besides its arguments. *)
Record Env `{Backend} : Type := {
  (** [utils.is_main_process()] *)
  is_main_process : bool;
  (** the batches [dataloader_train] yields in a given epoch *)
  dataloader_train : Z -> list (tensor * tensor);
  dataloader_test : list (tensor * tensor);
  (** [len(dataset_train.classes)] *)
  dataset_num_classes : Z;
  (** [len(data_loader.dataset)], or [None] without [__len__] *)
  dataset_test_len : option Z;
  (** [utils.reduce_across_processes] *)
  reduce_across_processes : Z -> Z;
  float_str : float -> string;
  (** the text written to [args.txt] *)
  args_text : Args -> string
}.

(** ** [set_optimizer] and [set_lr_scheduler] *)

(** a constructor call: the object asked for, or the exception the
    constructor raises for its arguments *)
Definition construct {A} (error : A -> option exn) (a : A) : result A :=
  match error a with
  | Some e => Raise e
  | None => Ok a
  end.

Definition set_optimizer `{B : Backend} (args : Args)
    : result OptimizerSpec :=
  let opt_name := lower (opt args) in
  if String.eqb opt_name "sgd" then
    construct optimizer_error
      (SGD (lr args) (momentum args) (weight_decay args))
  else if String.eqb opt_name "adamw" then
    construct optimizer_error (AdamW (lr args) (weight_decay args))
  else Raise (NotImplementedError ("Not supported optimizer " +:+ opt args)).

Definition set_lr_scheduler `{B : Backend} (args : Args)
    : result SchedulerSpec :=
  let lr_scheduler_name := lower (lr_scheduler args) in
  (let* main_lr_scheduler :=
     if String.eqb lr_scheduler_name "step" then
       construct scheduler_error (StepLR (lr_step_size args) (lr_gamma args))
     else if String.eqb lr_scheduler_name "cosa" then
       construct scheduler_error
         (CosineAnnealingLR (epochs args - lr_warmup_epochs args))
     else if String.eqb lr_scheduler_name "exp" then
       construct scheduler_error (ExponentialLR (lr_gamma args))
     else Raise (NotImplementedError
                   ("Not supported lr_scheduler " +:+ lr_scheduler args)) in
   if (0 <? lr_warmup_epochs args)%Z then
     let* warmup_lr_scheduler :=
       if String.eqb (lr_warmup_method args) "linear" then
         construct scheduler_error
           (LinearLR (lr_warmup_decay args) (lr_warmup_epochs args))
       else if String.eqb (lr_warmup_method args) "constant" then
         construct scheduler_error
           (ConstantLR (lr_warmup_decay args) (lr_warmup_epochs args))
       else Raise (NotImplementedError
                     ("Not supported lr_warmup_method "
                        +:+ lr_warmup_method args)) in
     construct scheduler_error
       (SequentialLR warmup_lr_scheduler main_lr_scheduler
          (lr_warmup_epochs args))
   else Ok main_lr_scheduler)%result.

(** ** A small instance, for running the definitions

    Tensors are floats, the run-time state counts the framework calls that
    changed it, a state dict is that count, and a meter's global average is
    the last value it was given.  With it the accuracy of an evaluation
    pass is the image value of its last batch.  The constructors check
    their arguments as those of [torch] do (a negative learning rate,
    momentum or weight decay; a warmup factor outside the unit interval),
    with the messages shortened. *)
Definition torch_optimizer_error (o : OptimizerSpec) : option exn :=
  match o with
  | SGD lr momentum weight_decay =>
      if PrimFloat.ltb lr 0 then Some (ValueError "Invalid learning rate")
      else if PrimFloat.ltb momentum 0
      then Some (ValueError "Invalid momentum value")
      else if PrimFloat.ltb weight_decay 0
      then Some (ValueError "Invalid weight_decay value")
      else None
  | AdamW lr weight_decay =>
      if negb (PrimFloat.leb 0 lr)
      then Some (ValueError "Invalid learning rate")
      else if negb (PrimFloat.leb 0 weight_decay)
      then Some (ValueError "Invalid weight_decay value")
      else None
  end.

Definition torch_scheduler_error (s : SchedulerSpec) : option exn :=
  match s with
  | LinearLR start_factor _ =>
      if PrimFloat.ltb 1 start_factor || PrimFloat.leb start_factor 0
      then Some (ValueError "Starting multiplicative factor expected to be greater than 0 and less or equal to 1.")
      else None
  | ConstantLR factor _ =>
      if PrimFloat.ltb 1 factor || PrimFloat.ltb factor 0
      then Some (ValueError "Constant multiplicative factor expected to be between 0 and 1.")
      else None
  | _ => None
  end.

Fixpoint last_update (name : string) (ml : list (string * float)) : float :=
  match ml with
  | [] => 0%float
  | (n, v) :: ml' => if String.eqb n name then v else last_update name ml'
  end.

Definition toy_backend : Backend := {|
  tensor := float;
  runtime := Z;
  model_sd := Z; optimizer_sd := Z; lr_scheduler_sd := Z; scaler_sd := Z;
  metric_logger := list (string * float);
  one_hot := fun _ t => t;
  unsqueeze_repeat := fun _ x => x;
  mean0 := fun y => y;
  shape0 := fun _ => 1;
  item := fun x => x;
  mse_loss := fun o t => PrimFloat.sub o t;
  accuracy_1_5 := fun o _ => (o, o);
  seed_all := fun _ r => r;
  select_device := fun _ r => r;
  load_data := fun _ r => r;
  build_model := fun _ r => r;
  optimizer_error := torch_optimizer_error;
  scheduler_error := torch_scheduler_error;
  build_optimizer := fun _ r => r;
  build_scaler := fun r => r;
  build_lr_scheduler := fun _ r => r;
  poisson_encode := fun x r => (x, r);
  forward := fun _ x r => (x, r);
  model_train := fun r => r;
  model_eval := fun r => r;
  zero_grad := fun r => r;
  backward := fun _ r => r;
  scaler_scale := fun l _ => l;
  scaler_unscale_ := fun r => r;
  clip_grad_norm_ := fun _ r => r;
  scaler_step := fun r => r + 1;
  scaler_update := fun r => r;
  optimizer_step := fun r => r + 1;
  reset_net := fun r => r;
  lr_scheduler_step := fun r => r;
  sampler_set_epoch := fun _ r => r;
  current_lr := fun _ => 0%float;
  model_state_dict := fun r => r;
  optimizer_state_dict := fun r => r;
  lr_scheduler_state_dict := fun r => r;
  scaler_state_dict := fun r => r;
  model_load_state_dict := fun sd _ => sd;
  optimizer_load_state_dict := fun _ r => r;
  lr_scheduler_load_state_dict := fun _ r => r;
  scaler_load_state_dict := fun _ r => r;
  ml_new := [];
  ml_update := fun name v _ ml => (name, v) :: ml;
  ml_synchronize := fun ml => ml;
  ml_global_avg := last_update
|}.

Definition toy_batch (img target : float)
    : @tensor toy_backend * @tensor toy_backend := (img, target).

(** One training batch and one test batch per epoch; the test image is
    [0.5], so every evaluation pass reports accuracy [0.5].  [len] is the
    length the test dataset declares. *)
Definition toy_env_len (len : option Z) (is_main : bool)
    : @Env toy_backend := {|
  is_main_process := is_main;
  dataloader_train := fun _ => [toy_batch 0.25 0];
  dataloader_test := [toy_batch 0.5 0];
  dataset_num_classes := 10;
  dataset_test_len := len;
  reduce_across_processes := fun n => n;
  float_str := fun _ => "F";
  args_text := fun _ => "args"
|}.

Definition toy_env (is_main : bool) : @Env toy_backend :=
  toy_env_len (Some 1) is_main.

Section Trainer.
Context `{B : Backend} (env : Env).

(** *** Checkpoints, files, observable events *)

(** The dict that [main] saves; ["scaler"] is a key of it only when a
    scaler exists. *)
Record Checkpoint : Type := {
  ck_model : model_sd;
  ck_optimizer : optimizer_sd;
  ck_lr_scheduler : lr_scheduler_sd;
  ck_epoch : Z;
  ck_args : Args;
  ck_max_test_acc1 : float;
  ck_scaler : option scaler_sd
}.

Inductive File : Type :=
| FileCheckpoint (ck : Checkpoint)
| FileText (text : string).

Inductive Call : Type :=
| c_model_train | c_model_eval
| c_one_hot | c_repeat (T : Z) | c_encode
| c_forward (ctx : ForwardCtx) | c_mean | c_criterion
| c_zero_grad | c_scale | c_backward (scaled : bool)
| c_unscale | c_clip (max_norm : float)
| c_optimizer_step | c_scaler_step | c_scaler_update
| c_reset_net | c_lr_scheduler_step | c_set_epoch (epoch : Z).

Inductive Event : Type :=
| EvCall (c : Call)
| EvSave (path : string) (ck : Checkpoint)
| EvScalar (tag : string) (value : float) (step : Z)
| EvLogEvery (header : string)
| EvWarn
| EvMakedirs (path : string)
| EvSummaryWriter (log_dir : string) (purge_step : Z).

(** *** Framework computations

    A computation over the run-time state that returns a value and the
    events it caused, in order.  The passes over the data are of this
    kind: they touch no file. *)

Definition Torch (A : Type) : Type := runtime -> A * runtime * list Event.

Definition ret {A} (a : A) : Torch A := fun r => (a, r, []).
Definition bind {A C} (m : Torch A) (k : A -> Torch C) : Torch C :=
  fun r =>
    let '(a, r1, evs1) := m r in
    let '(c, r2, evs2) := k a r1 in
    (c, r2, evs1 ++ evs2).

Definition emit (e : Event) : Torch unit := fun r => (tt, r, [e]).
(** a framework call that changes the run-time state *)
Definition run (c : Call) (f : runtime -> runtime) : Torch unit :=
  fun r => (tt, f r, [EvCall c]).
(** a framework call that also returns a tensor *)
Definition run_get (c : Call) (f : runtime -> tensor * runtime)
    : Torch tensor :=
  fun r => let (x, r') := f r in (x, r', [EvCall c]).
(** a framework call that only computes *)
Definition pure_call {A} (c : Call) (f : runtime -> A) : Torch A :=
  fun r => (f r, r, [EvCall c]).
Definition when (b : bool) (m : Torch unit) : Torch unit :=
  if b then m else ret tt.

Fixpoint for_each {A S} (body : S -> A -> Torch S) (l : list A) (s : S)
    : Torch S :=
  match l with
  | [] => ret s
  | x :: l' => bind (body s x) (for_each body l')
  end.

Notation "x <- m ;; k" := (bind m (fun x => k))
  (at level 100, m at next level, right associativity).
Notation "m ;;; k" := (bind m (fun _ => k))
  (at level 100, right associativity).

(** *** The training pass *)

Definition preprocess_train_sample (args : Args) (x : tensor) : Torch tensor :=
  x <- pure_call (c_repeat (T args)) (fun _ => unsqueeze_repeat (T args) x) ;;
  run_get c_encode (poisson_encode x).

Definition preprocess_test_sample (args : Args) (x : tensor) : Torch tensor :=
  x <- pure_call (c_repeat (T args)) (fun _ => unsqueeze_repeat (T args) x) ;;
  run_get c_encode (poisson_encode x).

Definition process_model_output (args : Args) (y : tensor) : Torch tensor :=
  pure_call c_mean (fun _ => mean0 y).

Definition cal_acc1_acc5 (output target : tensor) : tensor * tensor :=
  accuracy_1_5 output target.

(** the [if scaler is not None: ... else: ...] of the training loop *)
Definition backward_and_step (args : Args) (scaler : bool) (loss : tensor)
    : Torch unit :=
  if scaler then
    scaled <- pure_call c_scale (scaler_scale loss) ;;
    run (c_backward true) (backward scaled) ;;;
    match clip_grad_norm args with
    | Some max_norm =>
        run c_unscale scaler_unscale_ ;;;
        run (c_clip max_norm) (clip_grad_norm_ max_norm)
    | None => ret tt
    end ;;;
    run c_scaler_step scaler_step ;;;
    run c_scaler_update scaler_update
  else
    run (c_backward false) (backward loss) ;;;
    match clip_grad_norm args with
    | Some max_norm => run (c_clip max_norm) (clip_grad_norm_ max_norm)
    | None => ret tt
    end ;;;
    run c_optimizer_step optimizer_step.

(** One iteration of the loop of [train_one_epoch]; [scaler] says whether
    the scaler object is there ([scaler is not None]).  The throughput
    meter, which reads the wall clock, is left out. *)
Definition train_batch (args : Args) (scaler : bool)
    (ml : metric_logger) (b : tensor * tensor) : Torch metric_logger :=
  let (img, target) := b in
  target <- pure_call c_one_hot (fun _ => one_hot (num_classes args) target) ;;
  img <- preprocess_train_sample args img ;;
  y <- run_get (c_forward (Autocast scaler)) (forward (Autocast scaler) img) ;;
  output <- process_model_output args y ;;
  loss <- pure_call c_criterion (fun _ => mse_loss output target) ;;
  run c_zero_grad zero_grad ;;;
  backward_and_step args scaler loss ;;;
  run c_reset_net reset_net ;;;
  fun r =>
    let (acc1, acc5) := cal_acc1_acc5 output target in
    let batch_size := shape0 target in
    let ml := ml_update "lr" (current_lr r) 1
                (ml_update "loss" (item loss) 1 ml) in
    let ml := ml_update "acc1" (item acc1) batch_size ml in
    let ml := ml_update "acc5" (item acc5) batch_size ml in
    (ml, r, []).

(** [f'Epoch: [{epoch}]'], the header handed to [log_every] *)
Definition epoch_header (epoch : Z) : string :=
  "Epoch: [" +:+ pretty epoch +:+ "]".

Definition train_one_epoch (args : Args) (scaler : bool) (epoch : Z)
    : Torch (float * float * float) :=
  run c_model_train model_train ;;;
  emit (EvLogEvery (epoch_header epoch)) ;;;
  ml <- for_each (train_batch args scaler) (dataloader_train env epoch) ml_new ;;
  let ml := ml_synchronize ml in
  ret (ml_global_avg "loss" ml, ml_global_avg "acc1" ml,
       ml_global_avg "acc5" ml).

(** *** The evaluation pass *)

Definition evaluate_batch (args : Args)
    (acc : metric_logger * Z) (b : tensor * tensor)
    : Torch (metric_logger * Z) :=
  let (ml, num_processed_samples) := acc in
  let (img, target) := b in
  target <- pure_call c_one_hot (fun _ => one_hot (num_classes args) target) ;;
  img <- preprocess_test_sample args img ;;
  y <- run_get (c_forward InferenceMode) (forward InferenceMode img) ;;
  output <- process_model_output args y ;;
  loss <- pure_call c_criterion (fun _ => mse_loss output target) ;;
  let (acc1, acc5) := cal_acc1_acc5 output target in
  let batch_size := shape0 target in
  let ml := ml_update "loss" (item loss) 1 ml in
  let ml := ml_update "acc1" (item acc1) batch_size ml in
  let ml := ml_update "acc5" (item acc5) batch_size ml in
  run c_reset_net reset_net ;;;
  ret (ml, num_processed_samples + batch_size).

(** The test of the [if] before [warnings.warn]. *)
Definition sample_count_mismatch (num_processed_samples : Z) : bool :=
  match dataset_test_len env with
  | Some n => negb (n =? num_processed_samples) && is_main_process env
  | None => false
  end.

Definition evaluate (args : Args) : Torch (float * float * float) :=
  run c_model_eval model_eval ;;;
  emit (EvLogEvery "Test: ") ;;;
  r <- for_each (evaluate_batch args) (dataloader_test env) (ml_new, 0) ;;
  let (ml, num_processed_samples) := r : metric_logger * Z in
  let num_processed_samples :=
    reduce_across_processes env num_processed_samples in
  when (sample_count_mismatch num_processed_samples) (emit EvWarn) ;;;
  let ml := ml_synchronize ml in
  ret (ml_global_avg "loss" ml, ml_global_avg "acc1" ml,
       ml_global_avg "acc5" ml).

(** *** The process: run-time state, files, events so far

    [dirs] and [files] hold what the trainer's own code creates, writes
    or reads by path: [os.makedirs], [open], [torch.save] (through
    [utils.save_on_master]) and [torch.load].  What the libraries write by
    themselves (the dataset download under [data_path], the event files
    of [SummaryWriter] under [tb_dir]) belongs to the opaque run-time
    state. *)

Record World : Type := mkWorld {
  rt : runtime;
  dirs : gset string;
  files : gmap string File;
  trace : list Event
}.

Definition M (A : Type) : Type := World -> A * World.

Definition retM {A} (a : A) : M A := fun w => (a, w).
Definition bindM {A C} (m : M A) (k : A -> M C) : M C :=
  fun w => let (a, w') := m w in k a w'.

Notation "x <~ m ;; k" := (bindM m (fun x => k))
  (at level 100, m at next level, right associativity).
Notation "m ;;~ k" := (bindM m (fun _ => k))
  (at level 100, right associativity).

(** a framework computation, run inside the process *)
Definition liftT {A} (m : Torch A) : M A :=
  fun w =>
    let '(a, r, evs) := m (rt w) in
    (a, mkWorld r (dirs w) (files w) (trace w ++ evs)).

Definition modify (f : runtime -> runtime) : M unit :=
  fun w => (tt, mkWorld (f (rt w)) (dirs w) (files w) (trace w)).
Definition write_file (path : string) (f : File) : M unit :=
  fun w => (tt, mkWorld (rt w) (dirs w) (<[path := f]> (files w)) (trace w)).
Definition whenM (b : bool) (m : M unit) : M unit :=
  if b then m else retM tt.

Fixpoint for_eachM {A S} (body : S -> A -> M S) (l : list A) (s : S) : M S :=
  match l with
  | [] => retM s
  | x :: l' => bindM (body s x) (for_eachM body l')
  end.

Definition ok {A} (a : A) : M (result A) := retM (Ok a).
Definition throw {A} (e : exn) : M (result A) := retM (Raise e).
Definition lift {A} (m : M A) : M (result A) := a <~ m ;; ok a.
(** sequencing that stops at the first exception, keeping the state
    reached *)
Definition bind_ok {A C} (m : M (result A)) (k : A -> M (result C))
    : M (result C) :=
  r <~ m ;;
  match r with
  | Ok a => k a
  | Raise e => throw e
  end.

Notation "x <-? m ;; k" := (bind_ok m (fun x => k))
  (at level 100, m at next level, right associativity).

(** [os.makedirs(path, exist_ok=...)], as far as the trainer depends on
    it: the leaf directory is created, and an existing one is an error
    unless [exist_ok].  The directories above the leaf are not tracked:
    they are taken to be there or to be created on the way, so that a
    file standing at one of them ([NotADirectoryError]) is outside the
    model. *)
Definition makedirs (path : string) (exist_ok : bool) : M (result unit) :=
  fun w =>
    if bool_decide (is_Some (files w !! path)) then
      (Raise (FileExistsError path), w)
    else if bool_decide (path ∈ dirs w) then
      (if exist_ok then Ok tt else Raise (FileExistsError path), w)
    else
      (Ok tt, mkWorld (rt w) ({[path]} ∪ dirs w) (files w)
                (trace w ++ [EvMakedirs path])).

(** [torch.load(path)] *)
Definition torch_load (path : string) : M (result Checkpoint) :=
  fun w =>
    match files w !! path with
    | Some (FileCheckpoint ck) => (Ok ck, w)
    | Some (FileText _) => (Raise (UnpicklingError path), w)
    | None => (Raise (FileNotFoundError path), w)
    end.

(** Modelled from the spec: [utils.save_on_master], which is not among
    the sources; "checkpoint writes occur only on the coordinating
    process", so it is [torch.save] there and nothing elsewhere. *)
Definition save_on_master (ck : Checkpoint) (path : string) : M unit :=
  whenM (is_main_process env)
    (write_file path (FileCheckpoint ck) ;;~ liftT (emit (EvSave path ck))).

(** *** [main] *)

(** [range(a, b)] *)
Definition range (a b : Z) : list Z :=
  map (fun i => a + Z.of_nat i) (seq 0 (Z.to_nat (b - a))).

(** [self.model_configs[args.model]], a dict with the one key ['mixer'] *)
Definition load_model (args : Args) : M (result unit) :=
  if String.eqb (model args) "mixer" then lift (modify (build_model args))
  else throw (KeyError (model args)).

(** the dict built at the end of an epoch *)
Definition make_checkpoint (args : Args) (scaler : bool) (epoch : Z)
    (max_test_acc1 : float) (r : runtime) : Checkpoint :=
  {| ck_model := model_state_dict r;
     ck_optimizer := optimizer_state_dict r;
     ck_lr_scheduler := lr_scheduler_state_dict r;
     ck_epoch := epoch;
     ck_args := args;
     ck_max_test_acc1 := max_test_acc1;
     ck_scaler := if scaler then Some (scaler_state_dict r) else None |}.

(** the three [add_scalar] calls after a pass *)
Definition add_scalars (phase : string) (r : float * float * float)
    (epoch : Z) : Torch unit :=
  let '(loss, acc1, acc5) := r in
  emit (EvScalar (phase +:+ "_loss") loss epoch) ;;;
  emit (EvScalar (phase +:+ "_acc1") acc1 epoch) ;;;
  emit (EvScalar (phase +:+ "_acc5") acc5 epoch).

(** The body of the epoch loop; the loop carries [max_test_acc1]. *)
Definition epoch_body (args : Args) (scaler : bool) (pt_dir : string)
    (max_test_acc1 : float) (epoch : Z) : M float :=
  liftT (when (distributed args)
           (run (c_set_epoch epoch) (sampler_set_epoch epoch))) ;;~
  tr <~ liftT (train_one_epoch args scaler epoch) ;;
  liftT (when (is_main_process env) (add_scalars "train" tr epoch)) ;;~
  liftT (run c_lr_scheduler_step lr_scheduler_step) ;;~
  te <~ liftT (evaluate args) ;;
  let '(test_loss, test_acc1, test_acc5) := te in
  liftT (when (is_main_process env) (add_scalars "test" te epoch)) ;;~
  if is_main_process env then
    let save_max_test_acc1 := PrimFloat.ltb max_test_acc1 test_acc1 in
    let max_test_acc1 :=
      if save_max_test_acc1 then test_acc1 else max_test_acc1 in
    checkpoint <~ (fun w =>
      (make_checkpoint args scaler epoch max_test_acc1 (rt w), w)) ;;
    save_on_master checkpoint
      (path_join pt_dir "checkpoint_latest.pth") ;;~
    whenM save_max_test_acc1
      (save_on_master checkpoint
         (path_join pt_dir "checkpoint_max_test_acc1.pth")) ;;~
    retM max_test_acc1
  else retM max_test_acc1.

Definition epoch_loop (args : Args) (scaler : bool) (pt_dir : string)
    (max_test_acc1 : float) : M float :=
  for_eachM (epoch_body args scaler pt_dir)
    (range (start_epoch args) (epochs args)) max_test_acc1.

(** The [if args.resume is not None] block: what it leaves in [args] and
    in [max_test_acc1]. *)
Definition resume_from (args : Args) (scaler : bool) (pt_dir : string)
    (path : string) (max_test_acc1 : float) : M (result (Args * float)) :=
  checkpoint <-? torch_load
    (if String.eqb path "latest"
     then path_join pt_dir "checkpoint_latest.pth" else path) ;;
  modify (model_load_state_dict (ck_model checkpoint)) ;;~
  modify (optimizer_load_state_dict (ck_optimizer checkpoint)) ;;~
  modify (lr_scheduler_load_state_dict (ck_lr_scheduler checkpoint)) ;;~
  let args := set_start_epoch (ck_epoch checkpoint + 1) args in
  _ <-? (if scaler then
           match ck_scaler checkpoint with
           | Some sd => lift (modify (scaler_load_state_dict sd))
           | None => throw (KeyError "scaler")
           end
         else ok tt) ;;
  ok (args, if is_main_process env then ck_max_test_acc1 checkpoint
            else max_test_acc1).

(** The local variables of [main] that are live when the epoch loop
    starts. *)
Record Prepared : Type := {
  p_args : Args;
  p_scaler : bool;
  p_log_dir : string;
  p_pt_dir : string;
  p_tb_dir : string;
  p_max_test_acc1 : float
}.

(** [main] up to and including the resume block, from the arguments as
    [utils.init_distributed_mode] leaves them.  Printing is left out; the
    loaders that [load_data] and [DataLoader] build are those of [env]. *)
Definition prepare (args : Args) : M (result Prepared) :=
  modify (seed_all (seed args)) ;;~
  _ <-? (if negb (String.eqb (output_dir args) "")
         then makedirs (output_dir args) true else ok tt) ;;
  modify (select_device (device args)) ;;~
  modify (load_data args) ;;~
  let args := set_num_classes (dataset_num_classes env) args in
  _ <-? load_model args ;;
  optimizer <-? retM (set_optimizer args) ;;
  modify (build_optimizer optimizer) ;;~
  let scaler := amp args in
  whenM scaler (modify build_scaler) ;;~
  lr_scheduler <-? retM (set_lr_scheduler args) ;;
  modify (build_lr_scheduler lr_scheduler) ;;~
  let log_dir := get_logdir_name (float_str env) args in
  let pt_dir := path_join3 (output_dir args) log_dir "pt" in
  let tb_dir := path_join3 (output_dir args) log_dir "tb" in
  _ <-? (if is_main_process env then
           _ <-? makedirs tb_dir (is_not_None (resume args)) ;;
           makedirs pt_dir (is_not_None (resume args))
         else ok tt) ;;
  let max_test_acc1 := (-1)%float in
  r <-? match resume args with
        | Some path => resume_from args scaler pt_dir path max_test_acc1
        | None => ok (args, max_test_acc1)
        end ;;
  let (args, max_test_acc1) := r : Args * float in
  ok {| p_args := args; p_scaler := scaler; p_log_dir := log_dir;
        p_pt_dir := pt_dir; p_tb_dir := tb_dir;
        p_max_test_acc1 := max_test_acc1 |}.

(** the rest of [main]: the summary writer (an event: the event files it
    writes are the library's) and [args.txt] on the main process, then
    the epoch loop *)
Definition train (p : Prepared) : M unit :=
  whenM (is_main_process env)
    (liftT (emit (EvSummaryWriter (p_tb_dir p) (start_epoch (p_args p)))) ;;~
     write_file
       (path_join3 (output_dir (p_args p)) (p_log_dir p) "args.txt")
       (FileText (args_text env (p_args p)))) ;;~
  epoch_loop (p_args p) (p_scaler p) (p_pt_dir p) (p_max_test_acc1 p) ;;~
  retM tt.

Definition main (args : Args) : M (result unit) :=
  p <-? prepare args ;;
  lift (train p).
End Trainer.


(** ** Notions used in the statements *)

(** a string without upper-case letters, as the names compared against *)
Fixpoint no_upper (s : string) : bool :=
  match s with
  | EmptyString => true
  | String c s' => negb (is_upper c) && no_upper s'
  end.

(** the optimizer, the primary and the warmup scheduler that the names of
    [args] choose *)
Definition requested_optimizer (args : Args) : OptimizerSpec :=
  if spec_same_name (opt args) "sgd"
  then SGD (lr args) (momentum args) (weight_decay args)
  else AdamW (lr args) (weight_decay args).


Definition primary_scheduler (args : Args) : SchedulerSpec :=
  if spec_same_name (lr_scheduler args) "step"
  then StepLR (lr_step_size args) (lr_gamma args)
  else if spec_same_name (lr_scheduler args) "cosa"
  then CosineAnnealingLR (epochs args - lr_warmup_epochs args)
  else ExponentialLR (lr_gamma args).

Definition warmup_scheduler (args : Args) : SchedulerSpec :=
  if String.eqb (lr_warmup_method args) "linear"
  then LinearLR (lr_warmup_decay args) (lr_warmup_epochs args)
  else ConstantLR (lr_warmup_decay args) (lr_warmup_epochs args).

(** [--epochs 5] with every other flag at its default: the warmup is longer
    than the run. *)
Definition short_run : Args := {|
  data_path := "./data"; model := "mixer"; T := 4; cupy := false;
  device := "cuda"; batch_size := 32; epochs := 5; workers := 16;
  opt := "sgd"; lr := 0.1%float; momentum := 0.9%float;
  weight_decay := 0%float; lr_scheduler := "cosa"; lr_warmup_epochs := 10;
  lr_warmup_method := "linear"; lr_warmup_decay := 0.01%float;
  lr_step_size := 30; lr_gamma := 0.1%float; output_dir := "./logs";
  resume := None; start_epoch := 0; world_size := 1; dist_url := "env://";
  seed := 42; amp := false; clip_grad_norm := None; local_rank := None;
  sync_bn := false; distributed := false; num_classes := 10
|}.

(** the three components of what a framework computation returns *)
Definition value_of {A R L : Type} (x : A * R * L) : A := fst (fst x).
Definition rt_of {A R L : Type} (x : A * R * L) : R := snd (fst x).
Definition log_of {A R L : Type} (x : A * R * L) : L := snd x.

(** The steps of one training batch as the specification lists them: over
    [T] time steps, encode, forward, mean over time, MSE loss, backward
    (through the scaler under mixed precision), clip exactly under
    [clip_grad_norm], optimizer step. *)
Definition spec_training_steps (args : Args) (scaler : bool) : list Call :=
  [c_repeat (T args); c_encode; c_forward (Autocast scaler); c_mean;
   c_criterion; c_backward scaler]
  ++ match clip_grad_norm args with
     | Some max_norm => [c_clip max_norm]
     | None => []
     end
  ++ [if scaler then c_scaler_step else c_optimizer_step].

(** every framework call of one training batch, in order *)
Definition training_batch_calls (args : Args) (scaler : bool)
    : list Call :=
  [c_one_hot; c_repeat (T args); c_encode; c_forward (Autocast scaler);
   c_mean; c_criterion; c_zero_grad]
  ++ (if scaler then [c_scale] else [])
  ++ [c_backward scaler]
  ++ match clip_grad_norm args with
     | Some max_norm =>
         (if scaler then [c_unscale] else []) ++ [c_clip max_norm]
     | None => []
     end
  ++ [if scaler then c_scaler_step else c_optimizer_step]
  ++ (if scaler then [c_scaler_update] else [])
  ++ [c_reset_net].

(** every framework call of one evaluation batch, in order *)
Definition evaluation_batch_calls (args : Args) : list Call :=
  [c_one_hot; c_repeat (T args); c_encode; c_forward InferenceMode;
   c_mean; c_criterion; c_reset_net].

(** the samples an evaluation pass counts: the sum of [target.shape[0]]
    over the batches *)
Definition num_samples `{B : Backend} (args : Args)
    (l : list (tensor * tensor)) : Z :=
  fold_right (fun b n => shape0 (one_hot (num_classes args) (snd b)) + n) 0 l.

(** the same process over a dataset that declares no length *)
Definition without_len `{B : Backend} (env : Env) : Env := {|
  is_main_process := is_main_process env;
  dataloader_train := dataloader_train env;
  dataloader_test := dataloader_test env;
  dataset_num_classes := dataset_num_classes env;
  dataset_test_len := None;
  reduce_across_processes := reduce_across_processes env;
  float_str := float_str env;
  args_text := args_text env
|}.

(** In a loop over batches every batch but the first starts from a
    run-time state that [reset_net] has just returned. *)
Definition resets_between_batches `{B : Backend} {S : Type}
    (body : S -> tensor * tensor -> Torch S) : Prop :=
  forall pre b post s r, pre <> [] ->
    exists s1 r' evs,
      for_each body pre s r = (s1, reset_net r', evs)
      /\ for_each body (pre ++ b :: post) s r
         = (let '(c, r2, evs2) :=
              bind (body s1 b) (for_each body post) (reset_net r') in
            (c, r2, evs ++ evs2)).

(** What an epoch does to the framework before anything is saved: the
    training pass, the scheduler step, the evaluation pass, with the scalars
    the main process logs after each pass. *)
Definition epoch_passes `{B : Backend} (env : Env) (args : Args)
    (scaler : bool) (epoch : Z) : Torch (float * float * float) :=
  bind (when (distributed args)
          (run (c_set_epoch epoch) (sampler_set_epoch epoch))) (fun _ =>
  bind (train_one_epoch env args scaler epoch) (fun tr =>
  bind (when (is_main_process env) (add_scalars "train" tr epoch)) (fun _ =>
  bind (run c_lr_scheduler_step lr_scheduler_step) (fun _ =>
  bind (evaluate env args) (fun te =>
  bind (when (is_main_process env) (add_scalars "test" te epoch)) (fun _ =>
  ret te)))))).

(** the accuracy the evaluation pass of an epoch reports *)
Definition test_acc1_of (te : float * float * float) : float := snd (fst te).

(** the two checkpoint files of a run *)
Definition latest_path (pt_dir : string) : string :=
  path_join pt_dir "checkpoint_latest.pth".
Definition best_path (pt_dir : string) : string :=
  path_join pt_dir "checkpoint_max_test_acc1.pth".

(** the headers handed to [log_every], in order: one per pass *)
Definition log_headers `{B : Backend} (evs : list Event) : list string :=
  omap (fun ev => match ev with EvLogEvery h => Some h | _ => None end) evs.

(** the checkpoint writes, in order: the path and the epoch field *)
Definition save_log `{B : Backend} (evs : list Event) : list (string * Z) :=
  omap (fun ev => match ev with
                  | EvSave p ck => Some (p, ck_epoch ck)
                  | _ => None
                  end) evs.

(** the events of the framework's own work: calls, pass headers, warnings *)
Definition is_pass_event `{B : Backend} (ev : Event) : bool :=
  match ev with
  | EvCall _ | EvLogEvery _ | EvWarn => true
  | _ => false
  end.

(** a fresh process over an empty file system *)
Definition toy_world : @World toy_backend :=
  mkWorld (0 : @runtime toy_backend) ∅ ∅ [].

(** the file [torch.load] is given *)
Definition resume_path (pt_dir path : string) : string :=
  if String.eqb path "latest" then latest_path pt_dir else path.

(** the run-time state after the three unconditional [load_state_dict]s *)
Definition restore `{B : Backend} (ck : Checkpoint) (r : runtime) : runtime :=
  lr_scheduler_load_state_dict (ck_lr_scheduler ck)
    (optimizer_load_state_dict (ck_optimizer ck)
       (model_load_state_dict (ck_model ck) r)).

(** a checkpoint saved after epoch 2, in the small instance; [scaler] is
    its scaler entry, if it has one *)
Definition toy_checkpoint (scaler : option Z) : @Checkpoint toy_backend :=
  @Build_Checkpoint toy_backend 7 7 7 2 short_run 0.75%float scaler.

(** What the part of [main] before the epoch loop may do to the process:
    no file is written, directories are only added, and the only events
    are directory creations. *)
Definition setup_rel `{B : Backend} (w w' : World) : Prop :=
  files w' = files w
  /\ dirs w ⊆ dirs w'
  /\ exists evs, trace w' = trace w ++ evs
       /\ Forall (fun ev => exists p, ev = EvMakedirs p) evs.

(** a step that stays within [setup_rel] *)
Definition frames `{B : Backend} {A} (m : M A) : Prop :=
  forall w, setup_rel w (snd (m w)).

(** a step that raises from every state that satisfies [P] *)
Definition fails_from `{B : Backend} {A} (P : World -> Prop)
    (m : M (result A)) : Prop :=
  forall w, P w -> exists e, fst (m w) = Raise e.

(** [--resume last.pth] over the short run *)
Definition resumed_run : Args := {|
  data_path := "./data"; model := "mixer"; T := 4; cupy := false;
  device := "cuda"; batch_size := 32; epochs := 5; workers := 16;
  opt := "sgd"; lr := 0.1%float; momentum := 0.9%float;
  weight_decay := 0%float; lr_scheduler := "cosa"; lr_warmup_epochs := 10;
  lr_warmup_method := "linear"; lr_warmup_decay := 0.01%float;
  lr_step_size := 30; lr_gamma := 0.1%float; output_dir := "./logs";
  resume := Some "last.pth"; start_epoch := 0; world_size := 1;
  dist_url := "env://";
  seed := 42; amp := false; clip_grad_norm := None; local_rank := None;
  sync_bn := false; distributed := false; num_classes := 10
|}.

(** a process that finds [last.pth], saved after epoch 2 *)
Definition world_with_checkpoint : @World toy_backend :=
  mkWorld (0 : @runtime toy_backend) ∅
    {["last.pth" := FileCheckpoint (toy_checkpoint None)]} [].

(** membership in a list of names, letter for letter *)
Definition spec_exact_name_in (names : list string) (given : string) : bool :=
  existsb (String.eqb given) names.

(** [args.T = t] *)
Definition set_T (t : Z) (a : Args) : Args :=
  mkArgs (data_path a) (model a) t (cupy a) (device a) (batch_size a)
    (epochs a) (workers a) (opt a) (lr a) (momentum a) (weight_decay a)
    (lr_scheduler a) (lr_warmup_epochs a) (lr_warmup_method a)
    (lr_warmup_decay a) (lr_step_size a) (lr_gamma a) (output_dir a)
    (resume a) (start_epoch a) (world_size a) (dist_url a) (seed a) (amp a)
    (clip_grad_norm a) (local_rank a) (sync_bn a) (distributed a)
    (num_classes a).

(** [args.opt = o] *)
Definition set_opt (o : string) (a : Args) : Args :=
  mkArgs (data_path a) (model a) (T a) (cupy a) (device a) (batch_size a)
    (epochs a) (workers a) o (lr a) (momentum a) (weight_decay a)
    (lr_scheduler a) (lr_warmup_epochs a) (lr_warmup_method a)
    (lr_warmup_decay a) (lr_step_size a) (lr_gamma a) (output_dir a)
    (resume a) (start_epoch a) (world_size a) (dist_url a) (seed a) (amp a)
    (clip_grad_norm a) (local_rank a) (sync_bn a) (distributed a)
    (num_classes a).

(** ** Notions used in the further properties *)

(** the framework calls of a trace, in order *)
Definition calls_of `{B : Backend} (evs : list Event) : list Call :=
  omap (fun ev => match ev with EvCall c => Some c | _ => None end) evs.

(** how many calls of a kind *)
Definition count_calls (P : Call -> bool) (cs : list Call) : nat :=
  length (List.filter P cs).

Definition is_parameter_update (c : Call) : bool :=
  match c with
  | c_optimizer_step | c_scaler_step => true
  | _ => false
  end.

Definition is_forward (c : Call) : bool :=
  match c with c_forward _ => true | _ => false end.

Definition is_backward (c : Call) : bool :=
  match c with c_backward _ => true | _ => false end.

Definition is_zero_grad (c : Call) : bool :=
  match c with c_zero_grad => true | _ => false end.

Definition is_reset_net (c : Call) : bool :=
  match c with c_reset_net => true | _ => false end.

Definition is_lr_scheduler_step (c : Call) : bool :=
  match c with c_lr_scheduler_step => true | _ => false end.

(** the calls that change parameters, gradients, scaler or schedule, or put
    the module in training mode *)
Definition is_training_call (c : Call) : bool :=
  match c with
  | c_model_train | c_zero_grad | c_scale | c_backward _ | c_unscale
  | c_clip _ | c_optimizer_step | c_scaler_step | c_scaler_update
  | c_lr_scheduler_step | c_set_epoch _ => true
  | _ => false
  end.

(** the framework calls of one epoch, from the batch counts alone *)
Definition epoch_calls `{B : Backend} (env : Env) (args : Args)
    (scaler : bool) (epoch : Z) : list Call :=
  (if distributed args then [c_set_epoch epoch] else [])
  ++ c_model_train
     :: concat (map (fun _ => training_batch_calls args scaler)
                  (dataloader_train env epoch))
  ++ c_lr_scheduler_step
     :: c_model_eval
     :: concat (map (fun _ => evaluation_batch_calls args)
                  (dataloader_test env)).

(** the best file, when there is one, holds a checkpoint whose accuracy is
    the marker *)
Definition best_consistent `{B : Backend} (pt_dir : string) (m : float)
    (w : World) : Prop :=
  forall ck, files w !! best_path pt_dir = Some (FileCheckpoint ck) ->
             ck_max_test_acc1 ck = m.

(** the state [main] has reached when it turns to the run directories: the
    objects built, and the output directory there *)
Definition built `{B : Backend} (env : Env) (args : Args)
    (o : OptimizerSpec) (s : SchedulerSpec) (r : runtime) : runtime :=
  let args1 := set_num_classes (dataset_num_classes env) args in
  build_lr_scheduler s
    ((if amp args then build_scaler else fun r => r)
       (build_optimizer o
          (build_model args1
             (load_data args
                (select_device (device args) (seed_all (seed args) r)))))).

(** [args.lr = x], [args.resume = r] and [args.model = m] *)
Definition set_lr (x : float) (a : Args) : Args :=
  mkArgs (data_path a) (model a) (T a) (cupy a) (device a) (batch_size a)
    (epochs a) (workers a) (opt a) x (momentum a) (weight_decay a)
    (lr_scheduler a) (lr_warmup_epochs a) (lr_warmup_method a)
    (lr_warmup_decay a) (lr_step_size a) (lr_gamma a) (output_dir a)
    (resume a) (start_epoch a) (world_size a) (dist_url a) (seed a) (amp a)
    (clip_grad_norm a) (local_rank a) (sync_bn a) (distributed a)
    (num_classes a).


Definition set_model (m : string) (a : Args) : Args :=
  mkArgs (data_path a) m (T a) (cupy a) (device a) (batch_size a)
    (epochs a) (workers a) (opt a) (lr a) (momentum a) (weight_decay a)
    (lr_scheduler a) (lr_warmup_epochs a) (lr_warmup_method a)
    (lr_warmup_decay a) (lr_step_size a) (lr_gamma a) (output_dir a)
    (resume a) (start_epoch a) (world_size a) (dist_url a) (seed a) (amp a)
    (clip_grad_norm a) (local_rank a) (sync_bn a) (distributed a)
    (num_classes a).

(** the epochs [sampler.set_epoch] was called with, in order *)
Definition set_epoch_args (cs : list Call) : list Z :=
  omap (fun c => match c with c_set_epoch e => Some e | _ => None end) cs.

(** the events that [main] guards by [utils.is_main_process()]: checkpoint
    writes, scalars, the summary writer *)
Definition is_main_only_event `{B : Backend} (ev : Event) : bool :=
  match ev with
  | EvSave _ _ | EvScalar _ _ _ | EvSummaryWriter _ _ => true
  | _ => false
  end.

(** the last character of a string *)
Fixpoint last_ascii (s : string) : option ascii :=
  match s with
  | EmptyString => None
  | String c EmptyString => Some c
  | String _ s' => last_ascii s'
  end.


(** The metrics of an evaluation pass as the specification speaks of
    them, "computed over the samples actually processed": every batch
    processed contributes its loss, and its top-1 and top-5 accuracy
    weighted by its size, in the order of the batches; a batch is
    processed by encoding it over [T] steps, the forward pass in inference
    mode, the mean over time, and the reset of the network. *)
Definition spec_batch_metrics `{B : Backend} (args : Args)
    (img target : tensor) (r : runtime)
    : (float * float * float * Z) * runtime :=
  let target := one_hot (num_classes args) target in
  let enc := poisson_encode (unsqueeze_repeat (T args) img) r in
  let fwd := forward InferenceMode (fst enc) (snd enc) in
  let output := mean0 (fst fwd) in
  let acc := accuracy_1_5 output target in
  ((item (mse_loss output target), item (fst acc), item (snd acc),
    shape0 target),
   reset_net (snd fwd)).

Fixpoint spec_processed_metrics `{B : Backend} (args : Args)
    (l : list (tensor * tensor)) (ml : metric_logger) (r : runtime)
    : metric_logger :=
  match l with
  | [] => ml
  | (img, target) :: l' =>
      let '((loss, acc1, acc5, n), r') :=
        spec_batch_metrics args img target r in
      spec_processed_metrics args l'
        (ml_update "acc5" acc5 n
           (ml_update "acc1" acc1 n (ml_update "loss" loss 1 ml)))
        r'
  end.

(** the process after a completed short run, with a checkpoint of epoch 2
    kept as [last.pth] *)
Definition world_after_first_run : @World toy_backend :=
  let w1 := snd (main (toy_env true) short_run toy_world) in
  mkWorld (rt w1) (dirs w1)
    (<["last.pth" := FileCheckpoint (toy_checkpoint None)]> (files w1))
    (trace w1).

(** * Properties *)

(** ** Names and case *)

Lemma nat_of_ascii_inj (c d : ascii) :
  nat_of_ascii c = nat_of_ascii d -> c = d.
Proof.
  intros H. rewrite <- (ascii_nat_embedding c), <- (ascii_nat_embedding d).
  now rewrite H.
Qed.

Lemma lower_ascii_same_letter (c d : ascii) :
  is_upper d = false ->
  Ascii.eqb (lower_ascii c) d = spec_same_letter c d.
Proof.
  unfold is_upper, lower_ascii, spec_same_letter, is_upper. intros Hd.
  pose proof (nat_ascii_bounded c) as Hc.
  rewrite Hd, orb_false_r.
  destruct ((65 <=? nat_of_ascii c)%nat && (nat_of_ascii c <=? 90)%nat) eqn:Hu.
  - apply andb_prop in Hu as [H1%Nat.leb_le H2%Nat.leb_le].
    rewrite andb_true_l.
    destruct (Nat.eqb_spec (nat_of_ascii c) (nat_of_ascii d)) as [E|E].
    + rewrite <- E in Hd. exfalso.
      apply andb_false_iff in Hd as [Hd%Nat.leb_gt|Hd%Nat.leb_gt]; lia.
    + cbn [orb].
      destruct (Nat.eqb_spec (nat_of_ascii d) (nat_of_ascii c + 32)) as [E'|E'].
      * apply Ascii.eqb_eq. apply nat_of_ascii_inj.
        rewrite nat_ascii_embedding by lia. lia.
      * apply Ascii.eqb_neq. intros <-. apply E'.
        rewrite nat_ascii_embedding by lia. reflexivity.
  - rewrite andb_false_l, orb_false_r.
    destruct (Nat.eqb_spec (nat_of_ascii c) (nat_of_ascii d)) as [E|E].
    + apply Ascii.eqb_eq. now apply nat_of_ascii_inj.
    + apply Ascii.eqb_neq. congruence.
Qed.

Lemma lower_eqb_same_name (b a : string) :
  no_upper b = true ->
  String.eqb (lower a) b = spec_same_name a b.
Proof.
  revert a. induction b as [|d b IH]; intros [|c a] Hb; cbn; try reflexivity.
  cbn in Hb. apply andb_prop in Hb as [Hd%negb_true_iff Hb].
  rewrite lower_ascii_same_letter by exact Hd.
  rewrite IH by exact Hb. reflexivity.
Qed.

Section SetupNames.
Context `{B : Backend}.

Lemma set_optimizer_spec (args : Args) :
  set_optimizer args =
    if spec_name_in optimizer_names (opt args) then
      construct optimizer_error (requested_optimizer args)
    else Raise (NotImplementedError ("Not supported optimizer " +:+ opt args)).
Proof.
  unfold requested_optimizer.
  unfold set_optimizer, spec_name_in, optimizer_names. cbn [existsb].
  rewrite !lower_eqb_same_name by reflexivity.
  destruct (spec_same_name (opt args) "sgd"),
           (spec_same_name (opt args) "adamw"); reflexivity.
Qed.

Lemma set_lr_scheduler_spec (args : Args) :
  set_lr_scheduler args =
    if spec_name_in scheduler_names (lr_scheduler args) then
      (let* main_lr_scheduler :=
         construct scheduler_error (primary_scheduler args) in
       if (0 <? lr_warmup_epochs args)%Z then
         if existsb (String.eqb (lr_warmup_method args)) warmup_names then
           let* warmup_lr_scheduler :=
             construct scheduler_error (warmup_scheduler args) in
           construct scheduler_error
             (SequentialLR warmup_lr_scheduler main_lr_scheduler
                (lr_warmup_epochs args))
         else Raise (NotImplementedError
                       ("Not supported lr_warmup_method "
                          +:+ lr_warmup_method args))
       else Ok main_lr_scheduler)%result
    else Raise (NotImplementedError
                  ("Not supported lr_scheduler " +:+ lr_scheduler args)).
Proof.
  unfold set_lr_scheduler, spec_name_in, scheduler_names, warmup_names,
    primary_scheduler, warmup_scheduler.
  cbn [existsb].
  rewrite !lower_eqb_same_name by reflexivity.
  destruct (spec_same_name (lr_scheduler args) "step"),
           (spec_same_name (lr_scheduler args) "cosa"),
           (spec_same_name (lr_scheduler args) "exp"),
           (0 <? lr_warmup_epochs args)%Z,
           (String.eqb (lr_warmup_method args) "linear"),
           (String.eqb (lr_warmup_method args) "constant");
    cbn [orb rbind]; try reflexivity;
    destruct (construct scheduler_error _); reflexivity.
Qed.


Lemma construct_accepts {A} (error : A -> option exn) (a : A) :
  error a = None -> construct error a = Ok a.
Proof. unfold construct. now intros ->. Qed.

End SetupNames.

(** ** The passes over the data *)

Section Passes.
Context `{B : Backend}.

Lemma bind_value {A C} (m : Torch A) (k : A -> Torch C) (r : runtime) :
  value_of (bind m k r) = value_of (k (value_of (m r)) (rt_of (m r))).
Proof.
  unfold bind, value_of, rt_of. destruct (m r) as [[a r1] e1]. cbn.
  destruct (k a r1) as [[c r2] e2]. reflexivity.
Qed.

Lemma bind_rt {A C} (m : Torch A) (k : A -> Torch C) (r : runtime) :
  rt_of (bind m k r) = rt_of (k (value_of (m r)) (rt_of (m r))).
Proof.
  unfold bind, value_of, rt_of. destruct (m r) as [[a r1] e1]. cbn.
  destruct (k a r1) as [[c r2] e2]. reflexivity.
Qed.

Lemma bind_log {A C} (m : Torch A) (k : A -> Torch C) (r : runtime) :
  log_of (bind m k r)
  = log_of (m r) ++ log_of (k (value_of (m r)) (rt_of (m r))).
Proof.
  unfold bind, value_of, rt_of, log_of. destruct (m r) as [[a r1] e1]. cbn.
  destruct (k a r1) as [[c r2] e2]. reflexivity.
Qed.

Lemma for_each_app {A S} (body : S -> A -> Torch S) (l1 l2 : list A)
    (s : S) (r : runtime) :
  for_each body (l1 ++ l2) s r
  = bind (for_each body l1 s) (for_each body l2) r.
Proof.
  revert s r. induction l1 as [|x l1 IH]; intros s r; cbn [for_each app].
  - unfold bind, ret. destruct (for_each body l2 s r) as [[c r2] e2].
    reflexivity.
  - unfold bind. destruct (body s x r) as [[s1 r1] e1].
    rewrite IH. unfold bind.
    destruct (for_each body l1 s1 r1) as [[s2 r2] e2].
    destruct (for_each body l2 s2 r2) as [[s3 r3] e3].
    now rewrite app_assoc.
Qed.

(** the log of a loop whose body logs the same events whatever it is given *)
Lemma for_each_log {A S} (body : S -> A -> Torch S) (evs : list Event)
    (l : list A) (s : S) (r : runtime) :
  (forall s x r, log_of (body s x r) = evs) ->
  log_of (for_each body l s r) = concat (map (fun _ => evs) l).
Proof.
  intros Hbody. revert s r. induction l as [|x l IH]; intros s r.
  - reflexivity.
  - cbn [for_each map concat]. rewrite bind_log, Hbody, IH. reflexivity.
Qed.

Lemma train_batch_run (args : Args) (scaler : bool) (ml : metric_logger)
    (img target : tensor) (r : runtime) :
  let enc := poisson_encode (unsqueeze_repeat (T args) img) r in
  let fwd := forward (Autocast scaler) (fst enc) (snd enc) in
  let loss := mse_loss (mean0 (fst fwd)) (one_hot (num_classes args) target) in
  let r3 := zero_grad (snd fwd) in
  let r4 := backward (if scaler then scaler_scale loss r3 else loss) r3 in
  let r5 := match clip_grad_norm args with
            | Some max_norm =>
                clip_grad_norm_ max_norm
                  (if scaler then scaler_unscale_ r4 else r4)
            | None => r4
            end in
  let r6 := if scaler then scaler_update (scaler_step r5)
            else optimizer_step r5 in
  rt_of (train_batch args scaler ml (img, target) r) = reset_net r6
  /\ log_of (train_batch args scaler ml (img, target) r)
     = map EvCall (training_batch_calls args scaler).
Proof.
  unfold train_batch, preprocess_train_sample, process_model_output,
    backward_and_step, training_batch_calls, cal_acc1_acc5,
    bind, run_get, run, pure_call, ret, rt_of, log_of.
  cbn zeta.
  destruct (poisson_encode (unsqueeze_repeat (T args) img) r) as [x r1].
  cbn [fst snd].
  destruct (forward (Autocast scaler) x r1) as [y r2]. cbn [fst snd].
  destruct (accuracy_1_5 _ _) as [acc1 acc5].
  destruct scaler, (clip_grad_norm args) as [g|]; cbn; split; reflexivity.
Qed.

Lemma evaluate_batch_run (args : Args) (ml : metric_logger) (n : Z)
    (img target : tensor) (r : runtime) :
  let enc := poisson_encode (unsqueeze_repeat (T args) img) r in
  let fwd := forward InferenceMode (fst enc) (snd enc) in
  rt_of (evaluate_batch args (ml, n) (img, target) r) = reset_net (snd fwd)
  /\ snd (value_of (evaluate_batch args (ml, n) (img, target) r))
     = n + shape0 (one_hot (num_classes args) target)
  /\ log_of (evaluate_batch args (ml, n) (img, target) r)
     = map EvCall (evaluation_batch_calls args).
Proof.
  unfold evaluate_batch, preprocess_test_sample, process_model_output,
    evaluation_batch_calls, cal_acc1_acc5,
    bind, run_get, run, pure_call, ret, rt_of, log_of, value_of.
  cbn zeta.
  destruct (poisson_encode (unsqueeze_repeat (T args) img) r) as [x r1].
  cbn [fst snd].
  destruct (forward InferenceMode x r1) as [y r2]. cbn [fst snd].
  destruct (accuracy_1_5 _ _) as [acc1 acc5]. cbn. repeat split.
Qed.
End Passes.

Section PassProperties.
Context `{B : Backend}.

Lemma train_batch_log (args : Args) (scaler : bool) ml b r :
  log_of (train_batch args scaler ml b r)
  = map EvCall (training_batch_calls args scaler).
Proof. destruct b as [img target]. apply train_batch_run. Qed.

Lemma evaluate_batch_log (args : Args) acc b r :
  log_of (evaluate_batch args acc b r)
  = map EvCall (evaluation_batch_calls args).
Proof.
  destruct acc as [ml n], b as [img target]. apply evaluate_batch_run.
Qed.

Lemma train_one_epoch_log (env : Env) (args : Args) (scaler : bool)
    (epoch : Z) (r : runtime) :
  log_of (train_one_epoch env args scaler epoch r)
  = EvCall c_model_train :: EvLogEvery (epoch_header epoch)
    :: concat (map (fun _ => map EvCall (training_batch_calls args scaler))
                 (dataloader_train env epoch)).
Proof.
  unfold train_one_epoch. rewrite !bind_log. cbn [run emit log_of snd app].
  rewrite (for_each_log _ (map EvCall (training_batch_calls args scaler)))
    by (intros; apply train_batch_log).
  cbn. now rewrite app_nil_r.
Qed.

Lemma for_each_last_rt {S} (body : S -> tensor * tensor -> Torch S) :
  (forall s b r, exists r', rt_of (body s b r) = reset_net r') ->
  forall l s r, l <> [] -> exists r', rt_of (for_each body l s r) = reset_net r'.
Proof.
  intros Hbody l s r Hl.
  destruct (exists_last Hl) as (l' & b & ->).
  rewrite for_each_app, bind_rt. cbn [for_each]. rewrite bind_rt.
  cbn [ret rt_of fst snd]. apply Hbody.
Qed.

Lemma loop_resets_between_batches {S}
    (body : S -> tensor * tensor -> Torch S) :
  (forall s b r, exists r', rt_of (body s b r) = reset_net r') ->
  resets_between_batches body.
Proof.
  intros Hbody pre b post s r Hpre.
  destruct (for_each_last_rt body Hbody pre s r Hpre) as [r' Hr'].
  destruct (for_each body pre s r) as [[s1 r1] evs] eqn:E.
  cbn [rt_of fst snd] in Hr'. subst r1.
  exists s1, r', evs. split; [reflexivity|].
  rewrite for_each_app. unfold bind at 1. rewrite E.
  cbn [for_each]. reflexivity.
Qed.

Lemma train_batch_ends_reset (args : Args) (scaler : bool) ml b r :
  exists r', rt_of (train_batch args scaler ml b r) = reset_net r'.
Proof.
  destruct b as [img target]. eexists. apply train_batch_run.
Qed.

Lemma evaluate_batch_ends_reset (args : Args) acc b r :
  exists r', rt_of (evaluate_batch args acc b r) = reset_net r'.
Proof.
  destruct acc as [ml n], b as [img target]. eexists.
  apply evaluate_batch_run.
Qed.

(** C9.  In the training pass and in the evaluation pass alike, a batch
    ends with [reset_net]: it is the last call of the batch, the state the
    batch leaves is what [reset_net] returned, and so every batch after the
    first starts from a freshly reset state. *)
Theorem C9_reset_after_every_batch (args : Args) (scaler : bool) :
  (forall ml b r,
     (exists r', rt_of (train_batch args scaler ml b r) = reset_net r')
     /\ last (log_of (train_batch args scaler ml b r))
        = Some (EvCall c_reset_net))
  /\ (forall acc b r,
        (exists r', rt_of (evaluate_batch args acc b r) = reset_net r')
        /\ last (log_of (evaluate_batch args acc b r))
           = Some (EvCall c_reset_net))
  /\ resets_between_batches (train_batch args scaler)
  /\ resets_between_batches (evaluate_batch args).
Proof.
  split; [|split; [|split]].
  - intros ml b r. split; [apply train_batch_ends_reset|].
    rewrite train_batch_log. unfold training_batch_calls.
    destruct scaler, (clip_grad_norm args); reflexivity.
  - intros acc b r. split; [apply evaluate_batch_ends_reset|].
    rewrite evaluate_batch_log. reflexivity.
  - apply loop_resets_between_batches. intros. apply train_batch_ends_reset.
  - apply loop_resets_between_batches. intros. apply evaluate_batch_ends_reset.
Qed.
End PassProperties.

Section EvaluateProperties.
Context `{B : Backend}.

Lemma evaluate_run (env : Env) (args : Args) (r : runtime) :
  let lp := for_each (evaluate_batch args) (dataloader_test env)
              (ml_new, 0) (model_eval r) in
  let ml := ml_synchronize (fst (value_of lp)) in
  evaluate env args r
  = ((ml_global_avg "loss" ml, ml_global_avg "acc1" ml,
      ml_global_avg "acc5" ml),
     rt_of lp,
     EvCall c_model_eval :: EvLogEvery "Test: " :: log_of lp
       ++ (if sample_count_mismatch env
                (reduce_across_processes env (snd (value_of lp)))
           then [EvWarn] else [])).
Proof.
  unfold evaluate, bind, run, emit, when, ret, value_of, rt_of, log_of.
  destruct (for_each _ _ _ _) as [[[ml n] r'] evs]. cbn [fst snd].
  destruct (sample_count_mismatch env _); cbn; now rewrite ?app_nil_r.
Qed.

Lemma evaluate_counts (args : Args) (l : list (tensor * tensor))
    (ml : metric_logger) (n : Z) (r : runtime) :
  snd (value_of (for_each (evaluate_batch args) l (ml, n) r))
  = n + num_samples args l.
Proof.
  revert ml n r. induction l as [|[img target] l IH]; intros ml n r.
  - cbn. lia.
  - cbn [for_each num_samples fold_right snd]. rewrite bind_value.
    pose proof (evaluate_batch_run args ml n img target r) as (_ & Hn & _).
    destruct (value_of (evaluate_batch args (ml, n) (img, target) r))
      as [ml' n'].
    cbn [snd] in Hn. subst n'. rewrite IH.
    fold (num_samples args l). lia.
Qed.

Lemma evaluate_loop_no_warning (args : Args) (l : list (tensor * tensor))
    acc (r : runtime) :
  EvWarn ∉ log_of (for_each (evaluate_batch args) l acc r).
Proof.
  rewrite (for_each_log _ (map EvCall (evaluation_batch_calls args)))
    by (intros; apply evaluate_batch_log).
  intros H%list_elem_of_In%in_concat. destruct H as (evs & H1 & H2).
  apply in_map_iff in H1 as (_ & <- & _).
  apply in_map_iff in H2 as (c & Hc & _). discriminate.
Qed.

Lemma evaluate_batch_value (args : Args) (ml : metric_logger) (n : Z)
    (img target : tensor) (r : runtime) :
  let m := spec_batch_metrics args img target r in
  let '(loss, acc1, acc5, size) := fst m in
  value_of (evaluate_batch args (ml, n) (img, target) r)
  = (ml_update "acc5" acc5 size
       (ml_update "acc1" acc1 size (ml_update "loss" loss 1 ml)),
     n + size)
  /\ rt_of (evaluate_batch args (ml, n) (img, target) r) = snd m.
Proof.
  unfold spec_batch_metrics, evaluate_batch, preprocess_test_sample,
    process_model_output, cal_acc1_acc5,
    bind, run_get, run, pure_call, ret, rt_of, log_of, value_of.
  cbn zeta.
  destruct (poisson_encode (unsqueeze_repeat (T args) img) r) as [x r1].
  cbn [fst snd].
  destruct (forward InferenceMode x r1) as [y r2]. cbn [fst snd].
  destruct (accuracy_1_5 _ _) as [acc1 acc5]. cbn. split; reflexivity.
Qed.

Lemma evaluate_metrics (args : Args) (l : list (tensor * tensor))
    (ml : metric_logger) (n : Z) (r : runtime) :
  fst (value_of (for_each (evaluate_batch args) l (ml, n) r))
  = spec_processed_metrics args l ml r.
Proof.
  revert ml n r. induction l as [|[img target] l IH]; intros ml n r.
  - reflexivity.
  - cbn [for_each spec_processed_metrics]. rewrite bind_value.
    pose proof (evaluate_batch_value args ml n img target r) as H.
    cbn zeta in H.
    destruct (spec_batch_metrics args img target r)
      as [[[[loss acc1] acc5] size] r'].
    cbn [fst snd] in H. destruct H as [-> ->]. apply IH.
Qed.

(** C7.  The evaluation pass returns the metric tuple computed over the
    samples actually processed: the global averages, after
    synchronisation, of the loss and of the top-1 and top-5 accuracy that
    the batches of the loader contributed, in order.  Whether it warns is
    decided by the count alone: the warning is there exactly when the
    dataset declares a length, the reduced number of samples processed
    (the sum of the batch sizes) differs from it, and the process is the
    main one.  Nothing else changes: with or without the warning the pass
    returns the same tuple and leaves the same run-time state as a pass
    over a dataset that declares no length, and its events differ from
    that pass's by the one warning at the end. *)
Theorem C7_mismatch_only_warns (env : Env) (args : Args) (r : runtime) :
  let n := reduce_across_processes env
             (num_samples args (dataloader_test env)) in
  let mismatch :=
    match dataset_test_len env with
    | Some len => negb (len =? n) && is_main_process env
    | None => false
    end in
  let quiet := evaluate (without_len env) args r in
  let ml := ml_synchronize
              (spec_processed_metrics args (dataloader_test env) ml_new
                 (model_eval r)) in
  evaluate env args r
  = (value_of quiet, rt_of quiet,
     log_of quiet ++ (if mismatch then [EvWarn] else []))
  /\ (EvWarn ∉ log_of quiet)
  /\ value_of (evaluate env args r)
     = (ml_global_avg "loss" ml, ml_global_avg "acc1" ml,
        ml_global_avg "acc5" ml).
Proof.
  intros n mismatch quiet ml. subst quiet ml.
  split; [|split].
  - rewrite !evaluate_run. cbn [value_of rt_of log_of fst snd].
    cbn [without_len dataloader_test reduce_across_processes].
    rewrite evaluate_counts, Z.add_0_l. fold n.
    unfold sample_count_mismatch at 2. cbn [without_len dataset_test_len].
    unfold sample_count_mismatch. fold mismatch.
    rewrite app_nil_r. reflexivity.
  - rewrite evaluate_run. cbn [value_of rt_of log_of fst snd].
    unfold sample_count_mismatch. cbn [without_len dataset_test_len].
    rewrite app_nil_r. intros H.
    apply elem_of_cons in H as [H|H]; [discriminate|].
    apply elem_of_cons in H as [H|H]; [discriminate|].
    now apply evaluate_loop_no_warning in H.
  - rewrite evaluate_run.
    rewrite <- (evaluate_metrics args (dataloader_test env) ml_new 0
                  (model_eval r)).
    reflexivity.
Qed.
End EvaluateProperties.

(** ** The epoch loop *)

Ltac torch_step :=
  repeat (unfold bind, emit, run, ret;
          cbn [when add_scalars rt fst snd dirs files trace]).

Section EpochProperties.
Context `{B : Backend}.

Lemma epoch_body_run (env : Env) (args : Args) (scaler : bool)
    (pt_dir : string) (m : float) (e : Z) (w : World) :
  let ph := epoch_passes env args scaler e (rt w) in
  let improved := PrimFloat.ltb m (test_acc1_of (value_of ph)) in
  let m' := if improved then test_acc1_of (value_of ph) else m in
  let ck := make_checkpoint args scaler e m' (rt_of ph) in
  epoch_body env args scaler pt_dir m e w
  = if is_main_process env then
      (m',
       mkWorld (rt_of ph) (dirs w)
         (if improved
          then <[best_path pt_dir := FileCheckpoint ck]>
                 (<[latest_path pt_dir := FileCheckpoint ck]> (files w))
          else <[latest_path pt_dir := FileCheckpoint ck]> (files w))
         (trace w ++ log_of ph ++ EvSave (latest_path pt_dir) ck
            :: (if improved then [EvSave (best_path pt_dir) ck] else [])))
    else
      (m, mkWorld (rt_of ph) (dirs w) (files w) (trace w ++ log_of ph)).
Proof.
  unfold epoch_body, epoch_passes, save_on_master, test_acc1_of,
    latest_path, best_path, bindM, liftT, whenM, write_file, retM,
    value_of, rt_of, log_of, bind.
  destruct (when (distributed args) _ (rt w)) as [[[] r0] ev0].
  cbn [rt fst snd].
  destruct (train_one_epoch env args scaler e r0) as [[tr r1] ev1].
  destruct tr as [[tl ta1] ta5].
  destruct (is_main_process env) eqn:Hmain;
    torch_step;
    destruct (evaluate env args (lr_scheduler_step r1)) as [[te r3] ev3];
    destruct te as [[el ea1] ea5];
    torch_step.
  - destruct (PrimFloat.ltb m ea1);
      cbn [rt fst snd dirs files trace]; rewrite ?Hmain;
      cbn [rt fst snd dirs files trace];
      repeat rewrite <- app_assoc; reflexivity.
  - repeat rewrite <- app_assoc. rewrite ?app_nil_r. reflexivity.
Qed.
End EpochProperties.

(** ** What a trace shows *)

Section Traces.
Context `{B : Backend}.

Lemma append_inj_r (a x y : string) : a +:+ x = a +:+ y -> x = y.
Proof. induction a as [|c a IH]; cbn; [auto|]. intros [= H]. auto. Qed.

Lemma latest_ne_best (pt_dir : string) : latest_path pt_dir <> best_path pt_dir.
Proof.
  unfold latest_path, best_path, path_join. cbn [starts_with_sep Ascii.eqb].
  cbn. destruct (_ || _)%bool; intros H%append_inj_r; discriminate.
Qed.

Lemma log_headers_app (l1 l2 : list Event) :
  log_headers (l1 ++ l2) = log_headers l1 ++ log_headers l2.
Proof. apply omap_app. Qed.

Lemma save_log_app (l1 l2 : list Event) :
  save_log (l1 ++ l2) = save_log l1 ++ save_log l2.
Proof. apply omap_app. Qed.

Lemma log_headers_calls (cs : list Call) : log_headers (map EvCall cs) = [].
Proof. induction cs; [reflexivity | assumption]. Qed.

Lemma save_log_calls (cs : list Call) : save_log (map EvCall cs) = [].
Proof. induction cs; [reflexivity | assumption]. Qed.

Lemma omap_concat_const_nil {X Y} (f : X -> option Y) (evs : list X)
    {Z} (l : list Z) :
  omap f evs = [] -> omap f (concat (map (fun _ => evs) l)) = [].
Proof.
  intros H. induction l as [|x l IH]; [reflexivity|].
  cbn [map concat]. rewrite omap_app, H, IH. reflexivity.
Qed.

Lemma train_one_epoch_headers (env : Env) args scaler epoch r :
  log_headers (log_of (train_one_epoch env args scaler epoch r))
  = [epoch_header epoch].
Proof.
  rewrite train_one_epoch_log. cbn [log_headers omap]. cbn.
  unfold log_headers. rewrite omap_concat_const_nil; [reflexivity|].
  apply log_headers_calls.
Qed.

Lemma train_one_epoch_saves (env : Env) args scaler epoch r :
  save_log (log_of (train_one_epoch env args scaler epoch r)) = [].
Proof.
  rewrite train_one_epoch_log. cbn.
  unfold save_log. rewrite omap_concat_const_nil; [reflexivity|].
  apply save_log_calls.
Qed.

Lemma evaluate_log (env : Env) args r :
  exists warn,
    (warn = [] \/ warn = [EvWarn])
    /\ log_of (evaluate env args r)
       = EvCall c_model_eval :: EvLogEvery "Test: "
         :: concat (map (fun _ => map EvCall (evaluation_batch_calls args))
                      (dataloader_test env)) ++ warn.
Proof.
  rewrite evaluate_run. cbn [log_of snd].
  rewrite (for_each_log _ (map EvCall (evaluation_batch_calls args)))
    by (intros; apply evaluate_batch_log).
  destruct (sample_count_mismatch _ _); eauto.
Qed.

Lemma evaluate_headers (env : Env) args r :
  log_headers (log_of (evaluate env args r)) = ["Test: "].
Proof.
  destruct (evaluate_log env args r) as (warn & Hw & ->).
  cbn. unfold log_headers. rewrite omap_app.
  rewrite omap_concat_const_nil by reflexivity.
  destruct Hw as [-> | ->]; reflexivity.
Qed.

Lemma evaluate_saves (env : Env) args r :
  save_log (log_of (evaluate env args r)) = [].
Proof.
  destruct (evaluate_log env args r) as (warn & Hw & ->).
  cbn. unfold save_log. rewrite omap_app.
  rewrite omap_concat_const_nil by reflexivity.
  destruct Hw as [-> | ->]; reflexivity.
Qed.

Lemma epoch_passes_log (env : Env) args scaler e r :
  exists r0 r1 pre tr mid te post,
    log_of (epoch_passes env args scaler e r)
    = pre ++ log_of (train_one_epoch env args scaler e r0) ++ mid
        ++ EvCall c_lr_scheduler_step
        :: log_of (evaluate env args r1) ++ post
    /\ log_headers pre = [] /\ save_log pre = []
    /\ log_headers mid = [] /\ save_log mid = []
    /\ log_headers post = [] /\ save_log post = []
    /\ mid = (if is_main_process env
              then log_of (add_scalars "train" tr e r0) else [])
    /\ post = (if is_main_process env
               then log_of (add_scalars "test" te e r0) else [])
    /\ tr = value_of (train_one_epoch env args scaler e r0)
    /\ te = value_of (evaluate env args r1)
    /\ te = value_of (epoch_passes env args scaler e r).
Proof.
  unfold epoch_passes, value_of, log_of, bind.
  destruct (when (distributed args) _ r) as [[[] r0] ev0] eqn:E0.
  assert (Hev0 : log_headers ev0 = [] /\ save_log ev0 = [])
    by (destruct (distributed args); inversion E0; split; reflexivity).
  destruct Hev0 as [Hh0 Hs0].
  destruct (train_one_epoch env args scaler e r0) as [[tr r1] ev1] eqn:E1.
  destruct tr as [[tl ta1] ta5].
  exists r0, (lr_scheduler_step r1), ev0, (tl, ta1, ta5).
  destruct (is_main_process env); torch_step;
    destruct (evaluate env args (lr_scheduler_step r1)) as [[te r3] ev3];
    destruct te as [[el ea1] ea5]; torch_step.
  - exists (log_of (add_scalars "train" (tl, ta1, ta5) e r0)),
      (el, ea1, ea5), (log_of (add_scalars "test" (el, ea1, ea5) e r0)).
    rewrite E1. cbn [fst snd]. split.
    + cbn. rewrite ?app_nil_r. reflexivity.
    + repeat split; try reflexivity; assumption.
  - exists [], (el, ea1, ea5), []. rewrite E1. cbn [fst snd]. split.
    + cbn. rewrite ?app_nil_r. reflexivity.
    + repeat split; try reflexivity; assumption.
Qed.

Lemma epoch_passes_headers (env : Env) args scaler e r :
  log_headers (log_of (epoch_passes env args scaler e r))
  = [epoch_header e; "Test: "].
Proof.
  destruct (epoch_passes_log env args scaler e r)
    as (r0 & r1 & pre & tr & mid & te & post & -> & H1 & _ & H2 & _ & H3 & _).
  rewrite !log_headers_app. change (?x :: ?l ++ ?l') with ([x] ++ l ++ l').
  rewrite !log_headers_app, H1, H2, H3.
  rewrite train_one_epoch_headers, evaluate_headers. reflexivity.
Qed.

Lemma epoch_passes_saves (env : Env) args scaler e r :
  save_log (log_of (epoch_passes env args scaler e r)) = [].
Proof.
  destruct (epoch_passes_log env args scaler e r)
    as (r0 & r1 & pre & tr & mid & te & post & -> & _ & H1 & _ & H2 & _ & H3 & _).
  rewrite !save_log_app. change (?x :: ?l ++ ?l') with ([x] ++ l ++ l').
  rewrite !save_log_app, H1, H2, H3.
  rewrite train_one_epoch_saves, evaluate_saves. reflexivity.
Qed.
End Traces.

(** ** Checkpoints and the best accuracy *)

Section CheckpointProperties.
Context `{B : Backend}.

Lemma epoch_body_trace (env : Env) args scaler pt_dir m e w :
  let ph := epoch_passes env args scaler e (rt w) in
  let out := epoch_body env args scaler pt_dir m e w in
  let ck := make_checkpoint args scaler e (fst out) (rt_of ph) in
  rt (snd out) = rt_of ph
  /\ dirs (snd out) = dirs w
  /\ trace (snd out)
     = trace w ++ log_of ph
       ++ (if is_main_process env
           then EvSave (latest_path pt_dir) ck
                :: (if PrimFloat.ltb m (test_acc1_of (value_of ph))
                    then [EvSave (best_path pt_dir) ck] else [])
           else []).
Proof.
  intros ph out ck. subst out ck ph. rewrite epoch_body_run.
  destruct (is_main_process env); cbn [fst snd rt dirs trace];
    rewrite ?app_nil_r; auto.
Qed.

Lemma epoch_body_headers (env : Env) args scaler pt_dir m e w :
  log_headers (trace (snd (epoch_body env args scaler pt_dir m e w)))
  = log_headers (trace w) ++ [epoch_header e; "Test: "].
Proof.
  destruct (epoch_body_trace env args scaler pt_dir m e w) as (_ & _ & ->).
  rewrite !log_headers_app, epoch_passes_headers.
  destruct (is_main_process env); [|now rewrite app_nil_r].
  destruct (PrimFloat.ltb _ _); reflexivity.
Qed.

Lemma epoch_body_saves (env : Env) args scaler pt_dir m e w :
  save_log (trace (snd (epoch_body env args scaler pt_dir m e w)))
  = save_log (trace w)
    ++ (if is_main_process env
        then (latest_path pt_dir, e)
             :: (if PrimFloat.ltb m
                      (test_acc1_of
                         (value_of (epoch_passes env args scaler e (rt w))))
                 then [(best_path pt_dir, e)] else [])
        else []).
Proof.
  destruct (epoch_body_trace env args scaler pt_dir m e w) as (_ & _ & ->).
  rewrite !save_log_app, epoch_passes_saves.
  destruct (is_main_process env); [|reflexivity].
  destruct (PrimFloat.ltb _ _); reflexivity.
Qed.

Lemma for_eachM_app {A S} (body : S -> A -> M S) (l1 l2 : list A) s w :
  for_eachM body (l1 ++ l2) s w
  = for_eachM body l2 (fst (for_eachM body l1 s w))
      (snd (for_eachM body l1 s w)).
Proof.
  revert s w. induction l1 as [|x l1 IH]; intros s w; [reflexivity|].
  cbn [for_eachM app]. unfold bindM.
  destruct (body s x w) as [s1 w1]. apply IH.
Qed.

Lemma epoch_loop_headers (env : Env) args scaler pt_dir (l : list Z) m w :
  log_headers
    (trace (snd (for_eachM (epoch_body env args scaler pt_dir) l m w)))
  = log_headers (trace w)
    ++ concat (map (fun e => [epoch_header e; "Test: "]) l).
Proof.
  revert m w. induction l as [|e l IH]; intros m w.
  - cbn. now rewrite app_nil_r.
  - cbn [for_eachM map concat]. unfold bindM.
    pose proof (epoch_body_headers env args scaler pt_dir m e w) as He.
    destruct (epoch_body env args scaler pt_dir m e w) as [m1 w1].
    cbn [snd] in He. rewrite IH, He, <- app_assoc. reflexivity.
Qed.

Lemma epoch_loop_frame (env : Env) args scaler pt_dir (l : list Z) m w :
  let w' := snd (for_eachM (epoch_body env args scaler pt_dir) l m w) in
  dirs w' = dirs w
  /\ (is_main_process env = false -> files w' = files w /\ fst
        (for_eachM (epoch_body env args scaler pt_dir) l m w) = m).
Proof.
  revert m w. induction l as [|e l IH]; intros m w; cbn zeta.
  - cbn. auto.
  - cbn [for_eachM]. unfold bindM.
    pose proof (epoch_body_run env args scaler pt_dir m e w) as He.
    cbn zeta in He.
    destruct (epoch_body env args scaler pt_dir m e w) as [m1 w1].
    specialize (IH m1 w1). cbn zeta in IH. destruct IH as [IHd IHf].
    destruct (is_main_process env).
    + inversion He; subst. split; [|discriminate]. rewrite IHd. reflexivity.
    + inversion He; subst. split; [rewrite IHd; reflexivity|].
      intros _. destruct (IHf eq_refl) as [-> ->]. auto.
Qed.

Lemma epoch_loop_saves (env : Env) args scaler pt_dir (l : list Z) m w :
  exists writes,
    save_log
      (trace (snd (for_eachM (epoch_body env args scaler pt_dir) l m w)))
    = save_log (trace w) ++ concat writes
    /\ if is_main_process env then
         Forall2 (fun e ws =>
                    ws = [(latest_path pt_dir, e)]
                    \/ ws = [(latest_path pt_dir, e); (best_path pt_dir, e)])
           l writes
       else writes = [].
Proof.
  revert m w. induction l as [|e l IH]; intros m w.
  - exists []. cbn. rewrite app_nil_r. split; [reflexivity|].
    destruct (is_main_process env); [constructor | reflexivity].
  - cbn [for_eachM]. unfold bindM.
    pose proof (epoch_body_saves env args scaler pt_dir m e w) as He.
    destruct (epoch_body env args scaler pt_dir m e w) as [m1 w1].
    cbn [snd] in He. destruct (IH m1 w1) as (writes & Hw & HF).
    rewrite Hw, He. destruct (is_main_process env).
    + match type of He with _ = _ ++ ?ws => exists (ws :: writes) end.
      cbn [concat]. rewrite <- !app_assoc.
      split; [reflexivity|]. constructor; [|exact HF].
      destruct (PrimFloat.ltb _ _); auto.
    + subst writes. exists []. now rewrite !app_nil_r.
Qed.
End CheckpointProperties.

Section BestAccuracy.
Context `{B : Backend}.

(** C2 (as amended).  On the main process, for every epoch: when the
    epoch's test top-1 accuracy is strictly greater than [max_test_acc1],
    the marker becomes that accuracy and the best-accuracy file is written
    with this epoch's checkpoint; otherwise the marker and the best file
    stay as they were and no write to the best file occurs.  On any other
    process the marker is never updated and no file is written. *)
Theorem C2_best_accuracy (env : Env) (args : Args) (scaler : bool)
    (pt_dir : string) (m : float) (e : Z) (w : World) :
  let ph := epoch_passes env args scaler e (rt w) in
  let test_acc1 := test_acc1_of (value_of ph) in
  let out := epoch_body env args scaler pt_dir m e w in
  exists new,
    trace (snd out) = trace w ++ new
    /\ if is_main_process env then
         if PrimFloat.ltb m test_acc1 then
           fst out = test_acc1
           /\ files (snd out) !! best_path pt_dir
              = Some (FileCheckpoint
                        (make_checkpoint args scaler e test_acc1 (rt_of ph)))
           /\ (best_path pt_dir, e) ∈ save_log new
         else
           fst out = m
           /\ files (snd out) !! best_path pt_dir = files w !! best_path pt_dir
           /\ forall e', (best_path pt_dir, e') ∉ save_log new
       else
         fst out = m /\ files (snd out) = files w /\ save_log new = [].
Proof.
  intros ph test_acc1 out. subst out.
  destruct (epoch_body_trace env args scaler pt_dir m e w) as (_ & _ & Ht).
  cbn zeta in Ht. fold ph in Ht. fold test_acc1 in Ht.
  eexists. split; [exact Ht|].
  assert (Hps : save_log (log_of ph) = []) by apply epoch_passes_saves.
  rewrite save_log_app, Hps.
  rewrite epoch_body_run. fold ph test_acc1.
  destruct (is_main_process env).
  - destruct (PrimFloat.ltb m test_acc1); cbn [fst snd files].
    + split; [reflexivity|]. split; [apply lookup_insert_eq|].
      cbn. set_solver.
    + split; [reflexivity|]. split.
      * apply lookup_insert_ne, latest_ne_best.
      * intros e'. cbn. intros H.
        apply list_elem_of_singleton in H. injection H as H _.
        symmetry in H. now apply latest_ne_best in H.
  - cbn [fst snd files]. auto.
Qed.
End BestAccuracy.

(** C2, as stated, fails off the main process: there an epoch whose test
    accuracy ([0.5]) is strictly greater than the marker ([-1]) leaves the
    marker unchanged and writes nothing. *)
Lemma C2_not_updated_off_main :
  let out := epoch_body (toy_env false) short_run false "pt" (-1)%float 0
               toy_world in
  test_acc1_of
    (value_of (epoch_passes (toy_env false) short_run false 0 (rt toy_world)))
  = 0.5%float
  /\ PrimFloat.ltb (-1) 0.5 = true
  /\ fst out = (-1)%float
  /\ files (snd out) = ∅.
Proof. vm_compute. repeat split. Qed.

Section LatestCheckpoint.
Context `{B : Backend}.

(** C3.  An epoch's events are, in order, those of its training pass, the
    scheduler step, those of its evaluation pass, and only then, on the
    main process, the writes: one to the latest file, possibly one to the
    best file, both of the checkpoint built from the run-time state the
    passes left and with the epoch field equal to the epoch's index; the
    latest file then holds that checkpoint, whatever it held before.
    Another process writes nothing.  Over the whole loop the writes are,
    epoch by epoch in order, these and no others, so every checkpoint
    written carries the index of the epoch just completed. *)
Theorem C3_checkpoint_epoch (env : Env) (args : Args) (scaler : bool)
    (pt_dir : string) :
  (forall m e w,
     let ph := epoch_passes env args scaler e (rt w) in
     let out := epoch_body env args scaler pt_dir m e w in
     let ck := make_checkpoint args scaler e (fst out) (rt_of ph) in
     (exists r0 r1 pre mid post,
        log_of ph
        = pre ++ log_of (train_one_epoch env args scaler e r0) ++ mid
            ++ EvCall c_lr_scheduler_step
            :: log_of (evaluate env args r1) ++ post
        /\ save_log (log_of ph) = [])
     /\ if is_main_process env then
          files (snd out) !! latest_path pt_dir = Some (FileCheckpoint ck)
          /\ ck_epoch ck = e
          /\ exists best,
               (best = [] \/ best = [EvSave (best_path pt_dir) ck])
               /\ trace (snd out)
                  = trace w ++ log_of ph
                      ++ EvSave (latest_path pt_dir) ck :: best
        else
          files (snd out) = files w
          /\ trace (snd out) = trace w ++ log_of ph)
  /\ (forall m w,
        exists writes,
          save_log (trace (snd (epoch_loop env args scaler pt_dir m w)))
          = save_log (trace w) ++ concat writes
          /\ if is_main_process env then
               Forall2 (fun e ws =>
                          ws = [(latest_path pt_dir, e)]
                          \/ ws = [(latest_path pt_dir, e);
                                   (best_path pt_dir, e)])
                 (range (start_epoch args) (epochs args)) writes
             else writes = []).
Proof.
  split.
  - intros m e w ph out ck. split.
    + destruct (epoch_passes_log env args scaler e (rt w))
        as (r0 & r1 & pre & tr & mid & te & post & Hlog & _).
      exists r0, r1, pre, mid, post. split; [exact Hlog|].
      apply epoch_passes_saves.
    + subst ck out. rewrite epoch_body_run. fold ph.
      destruct (is_main_process env); cbn [fst snd files trace].
      * split; [|split; [reflexivity|]].
        -- destruct (PrimFloat.ltb _ _).
           ++ rewrite lookup_insert_ne by (apply not_eq_sym, latest_ne_best).
              apply lookup_insert_eq.
           ++ apply lookup_insert_eq.
        -- eexists. split; [|reflexivity].
           destruct (PrimFloat.ltb _ _); auto.
      * auto.
  - intros m w. apply epoch_loop_saves.
Qed.
End LatestCheckpoint.

(** ** Resume *)

Section ResumeProperties.
Context `{B : Backend}.

Lemma resume_from_run (env : Env) (args : Args) (scaler : bool)
    (pt_dir path : string) (m : float) (w : World) :
  resume_from env args scaler pt_dir path m w
  = match files w !! resume_path pt_dir path with
    | Some (FileCheckpoint ck) =>
        let r := restore ck (rt w) in
        let restored :=
          (set_start_epoch (ck_epoch ck + 1) args,
           if is_main_process env then ck_max_test_acc1 ck else m) in
        if scaler then
          match ck_scaler ck with
          | Some sd =>
              (Ok restored,
               mkWorld (scaler_load_state_dict sd r) (dirs w) (files w)
                 (trace w))
          | None =>
              (Raise (KeyError "scaler"),
               mkWorld r (dirs w) (files w) (trace w))
          end
        else (Ok restored, mkWorld r (dirs w) (files w) (trace w))
    | Some (FileText _) =>
        (Raise (UnpicklingError (resume_path pt_dir path)), w)
    | None => (Raise (FileNotFoundError (resume_path pt_dir path)), w)
    end.
Proof.
  unfold resume_from, resume_path, latest_path, restore, bind_ok, bindM,
    torch_load, throw, ok, lift, modify, retM.
  destruct (files w !! _) as [[ck|txt]|]; try reflexivity.
  cbn [rt dirs files trace].
  destruct scaler; [destruct (ck_scaler ck)|]; reflexivity.
Qed.

Lemma save_log_nil_no_save (evs : list Event) p ck :
  save_log evs = [] -> EvSave p ck ∉ evs.
Proof.
  intros H Hin. induction evs as [|ev evs IH]; [inversion Hin|].
  apply elem_of_cons in Hin as [<-|Hin]; [discriminate|].
  apply IH; [|exact Hin]. destruct ev; try discriminate; exact H.
Qed.
End ResumeProperties.

(** ** Setup *)

Section SetupProperties.
Context `{B : Backend}.

Lemma setup_rel_refl (w : World) : setup_rel w w.
Proof.
  split; [reflexivity|]. split; [reflexivity|].
  exists []. split; [now rewrite app_nil_r | constructor].
Qed.

Lemma setup_rel_trans (w1 w2 w3 : World) :
  setup_rel w1 w2 -> setup_rel w2 w3 -> setup_rel w1 w3.
Proof.
  intros (Hf1 & Hd1 & evs1 & Ht1 & HF1) (Hf2 & Hd2 & evs2 & Ht2 & HF2).
  split; [congruence|]. split; [set_solver|].
  exists (evs1 ++ evs2). split.
  - rewrite Ht2, Ht1, app_assoc. reflexivity.
  - apply Forall_app. auto.
Qed.

Lemma setup_rel_rt (w : World) (r : runtime) :
  setup_rel w (mkWorld r (dirs w) (files w) (trace w)).
Proof.
  split; [reflexivity|]. split; [reflexivity|].
  exists []. cbn. split; [now rewrite app_nil_r | constructor].
Qed.

Lemma bindM_eq {A C} (m : M A) (k : A -> M C) (w : World) :
  bindM m k w = k (fst (m w)) (snd (m w)).
Proof. unfold bindM. destruct (m w). reflexivity. Qed.

Lemma bind_ok_eq {A C} (m : M (result A)) (k : A -> M (result C)) w :
  bind_ok m k w
  = match fst (m w) with
    | Ok a => k a (snd (m w))
    | Raise e => (Raise e, snd (m w))
    end.
Proof.
  unfold bind_ok, bindM, throw, retM. destruct (m w) as [[a|e] w1]; reflexivity.
Qed.

Lemma bind_ok_inv {A C} (m : M (result A)) (k : A -> M (result C)) w c w' :
  bind_ok m k w = (Ok c, w') ->
  exists a, fst (m w) = Ok a /\ k a (snd (m w)) = (Ok c, w').
Proof.
  rewrite bind_ok_eq. destruct (fst (m w)) as [a|e]; [eauto | discriminate].
Qed.

Lemma frames_retM {A} (a : A) : frames (retM a).
Proof. intros w. apply setup_rel_refl. Qed.

Lemma frames_modify (f : runtime -> runtime) : frames (modify f).
Proof. intros w. apply setup_rel_rt. Qed.

Lemma frames_bindM {A C} (m : M A) (k : A -> M C) :
  frames m -> (forall a, frames (k a)) -> frames (bindM m k).
Proof.
  intros Hm Hk w. rewrite bindM_eq.
  eapply setup_rel_trans; [apply Hm | apply Hk].
Qed.

Lemma frames_bind_ok {A C} (m : M (result A)) (k : A -> M (result C)) :
  frames m -> (forall a, frames (k a)) -> frames (bind_ok m k).
Proof.
  intros Hm Hk w. rewrite bind_ok_eq. destruct (fst (m w)) as [a|e].
  - eapply setup_rel_trans; [apply Hm | apply Hk].
  - apply Hm.
Qed.

Lemma frames_lift {A} (m : M A) : frames m -> frames (lift m).
Proof. intros Hm. apply frames_bindM; [exact Hm|]. intros a. apply frames_retM. Qed.

Lemma frames_whenM (b : bool) (m : M unit) : frames m -> frames (whenM b m).
Proof. intros Hm. destruct b; [exact Hm | apply frames_retM]. Qed.

Lemma frames_makedirs (path : string) (exist_ok : bool) :
  frames (makedirs path exist_ok).
Proof.
  intros w. unfold makedirs.
  destruct (bool_decide _); [apply setup_rel_refl|].
  destruct (bool_decide _); [apply setup_rel_refl|].
  cbn [snd]. split; [reflexivity|]. split; [cbn; set_solver|].
  exists [EvMakedirs path]. split; [reflexivity|].
  constructor; [eauto | constructor].
Qed.

Lemma frames_load_model (args : Args) : frames (load_model args).
Proof.
  unfold load_model. destruct (String.eqb _ _).
  - apply frames_lift, frames_modify.
  - apply frames_retM.
Qed.

Lemma frames_resume_from (env : Env) args scaler pt_dir path m :
  frames (resume_from env args scaler pt_dir path m).
Proof.
  intros w. rewrite resume_from_run.
  destruct (files w !! _) as [[ck|txt]|]; try apply setup_rel_refl.
  cbn zeta. destruct scaler; [destruct (ck_scaler ck)|]; apply setup_rel_rt.
Qed.

Lemma frames_prepare (env : Env) (args : Args) : frames (prepare env args).
Proof.
  unfold prepare.
  apply frames_bindM; [apply frames_modify|]. intros _.
  apply frames_bind_ok.
  { destruct (negb _); [apply frames_makedirs | apply frames_retM]. }
  intros _. apply frames_bindM; [apply frames_modify|]. intros _.
  apply frames_bindM; [apply frames_modify|]. intros _.
  apply frames_bind_ok; [apply frames_load_model|]. intros _.
  apply frames_bind_ok; [apply frames_retM|]. intros optimizer.
  apply frames_bindM; [apply frames_modify|]. intros _.
  apply frames_bindM; [apply frames_whenM, frames_modify|]. intros _.
  apply frames_bind_ok; [apply frames_retM|]. intros sched.
  apply frames_bindM; [apply frames_modify|]. intros _.
  apply frames_bind_ok.
  { destruct (is_main_process env); [|apply frames_retM].
    apply frames_bind_ok; [apply frames_makedirs|]. intros _.
    apply frames_makedirs. }
  intros _. apply frames_bind_ok.
  { destruct (resume _); [apply frames_resume_from | apply frames_retM]. }
  intros [args' m]. apply frames_retM.
Qed.

Lemma setup_rel_projections (w w' : World) :
  setup_rel w w' ->
  log_headers (trace w') = log_headers (trace w)
  /\ save_log (trace w') = save_log (trace w)
  /\ filter is_pass_event (trace w') = filter is_pass_event (trace w).
Proof.
  intros (_ & _ & evs & -> & HF).
  rewrite log_headers_app, save_log_app, filter_app.
  assert (log_headers evs = [] /\ save_log evs = []
          /\ filter is_pass_event evs = []) as (-> & -> & ->).
  { induction HF as [|ev evs [p ->] _ IH]; [auto|]. exact IH. }
  now rewrite !app_nil_r.
Qed.
End SetupProperties.

Section PrepareProperties.
Context `{B : Backend}.

Lemma bindM_inv {A C} (m : M A) (k : A -> M C) w x w' :
  frames m -> bindM m k w = (x, w') ->
  exists a w1, setup_rel w w1 /\ m w = (a, w1) /\ k a w1 = (x, w').
Proof.
  intros Hm H. rewrite bindM_eq in H.
  exists (fst (m w)), (snd (m w)). split; [apply Hm|].
  split; [apply surjective_pairing | exact H].
Qed.

Lemma bind_ok_inv_frames {A C} (m : M (result A)) (k : A -> M (result C))
    w c w' :
  frames m -> bind_ok m k w = (Ok c, w') ->
  exists a w1, setup_rel w w1 /\ m w = (Ok a, w1) /\ k a w1 = (Ok c, w').
Proof.
  intros Hm H. apply bind_ok_inv in H as (a & Ha & H).
  exists a, (snd (m w)). split; [apply Hm|]. split; [|exact H].
  rewrite <- Ha. apply surjective_pairing.
Qed.

Lemma makedirs_ok (path : string) (exist_ok : bool) (w w' : World) :
  makedirs path exist_ok w = (Ok tt, w') -> path ∈ dirs w'.
Proof.
  unfold makedirs.
  destruct (bool_decide _); [discriminate|].
  destruct (bool_decide (path ∈ dirs w)) eqn:E.
  - apply bool_decide_eq_true in E. intros [= _ <-]. exact E.
  - intros [= <-]. cbn. set_solver.
Qed.

Lemma makedirs_exists (path : string) (w : World) :
  path ∈ dirs w -> exists e, fst (makedirs path false w) = Raise e.
Proof.
  intros H. unfold makedirs.
  destruct (bool_decide (is_Some _)); [eauto|].
  rewrite bool_decide_eq_true_2 by exact H. eauto.
Qed.

Lemma prepare_ok (env : Env) (args : Args) (w w' : World) (p : Prepared) :
  prepare env args w = (Ok p, w') ->
  let args1 := set_num_classes (dataset_num_classes env) args in
  let log_dir := get_logdir_name (float_str env) args1 in
  setup_rel w w'
  /\ p_scaler p = amp args
  /\ p_log_dir p = log_dir
  /\ p_pt_dir p = path_join3 (output_dir args) log_dir "pt"
  /\ p_tb_dir p = path_join3 (output_dir args) log_dir "tb"
  /\ (is_main_process env = true ->
      p_tb_dir p ∈ dirs w' /\ p_pt_dir p ∈ dirs w')
  /\ match resume args with
     | None => p_args p = args1 /\ p_max_test_acc1 p = (-1)%float
     | Some path =>
         exists ck,
           files w !! resume_path (p_pt_dir p) path = Some (FileCheckpoint ck)
           /\ p_args p = set_start_epoch (ck_epoch ck + 1) args1
           /\ p_max_test_acc1 p
              = (if is_main_process env then ck_max_test_acc1 ck
                 else (-1)%float)
     end.
Proof.
  intros H args1 log_dir.
  split. { replace w' with (snd (prepare env args w)) by now rewrite H.
           apply frames_prepare. }
  unfold prepare in H. fold args1 in H. fold log_dir in H.
  apply bindM_inv in H as ([] & w1 & R1 & _ & H); [|apply frames_modify].
  apply bind_ok_inv_frames in H as ([] & w2 & R2 & _ & H);
    [|destruct (negb _); [apply frames_makedirs | apply frames_retM]].
  apply bindM_inv in H as ([] & wd & Rd & _ & H); [|apply frames_modify].
  apply bindM_inv in H as ([] & wl & Rl & _ & H); [|apply frames_modify].
  apply bind_ok_inv_frames in H as ([] & w3 & R3 & _ & H);
    [|apply frames_load_model].
  apply bind_ok_inv_frames in H as (optimizer & w4 & R4 & _ & H);
    [|apply frames_retM].
  apply bindM_inv in H as ([] & w5 & R5 & _ & H); [|apply frames_modify].
  apply bindM_inv in H as ([] & w6 & R6 & _ & H);
    [|apply frames_whenM, frames_modify].
  apply bind_ok_inv_frames in H as (sched & w7 & R7 & _ & H);
    [|apply frames_retM].
  apply bindM_inv in H as ([] & w8 & R8 & _ & H); [|apply frames_modify].
  apply bind_ok_inv_frames in H as ([] & w9 & R9 & Hdirs & H).
  2:{ destruct (is_main_process env); [|apply frames_retM].
      apply frames_bind_ok; [apply frames_makedirs|]. intros _.
      apply frames_makedirs. }
  apply bind_ok_inv_frames in H as ([args' m'] & w10 & R10 & Hres & H).
  2:{ destruct (resume _); [apply frames_resume_from | apply frames_retM]. }
  injection H as <- <-. cbn [p_scaler p_log_dir p_pt_dir p_tb_dir p_args
                               p_max_test_acc1].
  repeat (split; [reflexivity|]).
  assert (R09 : setup_rel w w9).
  { do 10 (eapply setup_rel_trans; [eassumption|]). exact R9. }
  split.
  - intros Hmain. rewrite Hmain in Hdirs.
    apply bind_ok_inv_frames in Hdirs as ([] & wa & _ & Htb & Hpt);
      [|apply frames_makedirs].
    match type of Hpt with makedirs ?a ?b _ = _ =>
      pose proof (frames_makedirs a b wa) as F end.
    rewrite Hpt in F. destruct F as (_ & Hsub' & _). cbn [snd] in Hsub'.
    apply makedirs_ok in Htb. apply makedirs_ok in Hpt.
    destruct R10 as (_ & Hsub & _).
    split; set_solver.
  - change (resume args1) with (resume args) in Hres.
    destruct (resume args) as [path|].
    + rewrite resume_from_run in Hres.
      destruct R09 as (Hfiles & _). rewrite Hfiles in Hres.
      change (output_dir args1) with (output_dir args) in Hres.
      destruct (files w !! _) as [[ck|txt]|] eqn:Hck; try discriminate.
      exists ck. split; [reflexivity|]. cbv zeta in Hres.
      destruct (amp args1); [destruct (ck_scaler ck)|];
        inversion Hres; auto.
    + inversion Hres. auto.
Qed.
End PrepareProperties.

(** ** What a batch does, what a checkpoint holds *)

Section BatchesAndCheckpoints.
Context `{B : Backend}.

(** C8.  Every training batch makes the framework calls in the order the
    specification gives: replicate over [T] steps, Poisson-encode, forward,
    mean over time, MSE against the one-hot target, backward (of the scaled
    loss when there is a scaler), clip exactly when [clip_grad_norm] is
    set, optimizer step (through the scaler when there is one); and the
    run-time state it leaves is the composition of these calls in that
    order.  The steps the specification lists occur among the calls in the
    order it lists them; the loss is scaled exactly when there is a scaler
    and a clipping call occurs exactly when [clip_grad_norm] is set.  A
    training pass is this sequence once per batch, and [main] runs it with
    a scaler exactly under [--amp]. *)
Theorem C8_training_batch_order (env : Env) (args : Args) (scaler : bool) :
  (forall ml img target r,
     let enc := poisson_encode (unsqueeze_repeat (T args) img) r in
     let fwd := forward (Autocast scaler) (fst enc) (snd enc) in
     let loss :=
       mse_loss (mean0 (fst fwd)) (one_hot (num_classes args) target) in
     let r3 := zero_grad (snd fwd) in
     let r4 := backward (if scaler then scaler_scale loss r3 else loss) r3 in
     let r5 := match clip_grad_norm args with
               | Some max_norm =>
                   clip_grad_norm_ max_norm
                     (if scaler then scaler_unscale_ r4 else r4)
               | None => r4
               end in
     let r6 := if scaler then scaler_update (scaler_step r5)
               else optimizer_step r5 in
     rt_of (train_batch args scaler ml (img, target) r) = reset_net r6
     /\ log_of (train_batch args scaler ml (img, target) r)
        = map EvCall (training_batch_calls args scaler))
  /\ sublist (spec_training_steps args scaler)
       (training_batch_calls args scaler)
  /\ (c_scale ∈ training_batch_calls args scaler <-> scaler = true)
  /\ ((exists max_norm, c_clip max_norm ∈ training_batch_calls args scaler)
      <-> clip_grad_norm args <> None)
  /\ (forall epoch r,
        log_of (train_one_epoch env args scaler epoch r)
        = EvCall c_model_train :: EvLogEvery (epoch_header epoch)
          :: concat (map (fun _ =>
                            map EvCall (training_batch_calls args scaler))
                       (dataloader_train env epoch)))
  /\ (forall w p w',
        prepare env args w = (Ok p, w') -> p_scaler p = amp args).
Proof.
  split; [|split; [|split; [|split; [|split]]]].
  - intros ml img target r. apply train_batch_run.
  - unfold spec_training_steps, training_batch_calls.
    destruct scaler, (clip_grad_norm args) as [g|]; cbn;
      repeat first [apply sublist_skip | apply sublist_cons];
      apply sublist_nil.
  - unfold training_batch_calls.
    destruct scaler, (clip_grad_norm args) as [g|]; cbn; split;
      try discriminate; try reflexivity; intros H;
      repeat (apply elem_of_cons in H as [H|H]; [discriminate|]);
      try (now inversion H); set_solver.
  - unfold training_batch_calls.
    destruct scaler, (clip_grad_norm args) as [g|]; cbn; split;
      try discriminate; try congruence;
      try (intros _; exists g; set_solver);
      intros [g' H];
      repeat (apply elem_of_cons in H as [H|H]; [discriminate|]);
      inversion H.
  - intros epoch r. apply train_one_epoch_log.
  - intros w p w' Hp. now apply prepare_ok in Hp.
Qed.

(** C4 (as amended).  Every checkpoint an epoch writes holds the model,
    optimizer and scheduler state dicts of the run-time state the epoch
    left, the epoch index, the arguments and the best accuracy so far; it
    holds the scaler state exactly when there is a scaler (mixed
    precision).  On resume the model, optimizer and scheduler states are
    loaded from the checkpoint and [start_epoch] becomes its epoch plus
    one; the scaler state is loaded exactly when there is a scaler, and a
    checkpoint without one is then a [KeyError]; the best accuracy is
    taken from the checkpoint on the main process only.  [main] has a
    scaler exactly under [--amp]. *)
Theorem C4_checkpoint_components (env : Env) (args : Args) (scaler : bool)
    (pt_dir : string) :
  (forall m e w p ck new,
     let ph := epoch_passes env args scaler e (rt w) in
     let out := epoch_body env args scaler pt_dir m e w in
     trace (snd out) = trace w ++ new ->
     EvSave p ck ∈ new ->
     ck_model ck = model_state_dict (rt_of ph)
     /\ ck_optimizer ck = optimizer_state_dict (rt_of ph)
     /\ ck_lr_scheduler ck = lr_scheduler_state_dict (rt_of ph)
     /\ ck_epoch ck = e
     /\ ck_args ck = args
     /\ ck_max_test_acc1 ck = fst out
     /\ ck_scaler ck
        = (if scaler then Some (scaler_state_dict (rt_of ph)) else None))
  /\ (forall path m w ck,
        files w !! resume_path pt_dir path = Some (FileCheckpoint ck) ->
        let r := restore ck (rt w) in
        let restored :=
          (set_start_epoch (ck_epoch ck + 1) args,
           if is_main_process env then ck_max_test_acc1 ck else m) in
        resume_from env args scaler pt_dir path m w
        = if scaler then
            match ck_scaler ck with
            | Some sd =>
                (Ok restored,
                 mkWorld (scaler_load_state_dict sd r) (dirs w) (files w)
                   (trace w))
            | None =>
                (Raise (KeyError "scaler"),
                 mkWorld r (dirs w) (files w) (trace w))
            end
          else (Ok restored, mkWorld r (dirs w) (files w) (trace w)))
  /\ (forall w p w',
        prepare env args w = (Ok p, w') -> p_scaler p = amp args).
Proof.
  split; [|split].
  - intros m e w p ck new ph out Ht Hin.
    destruct (epoch_body_trace env args scaler pt_dir m e w) as (_ & _ & Ht').
    cbn zeta in Ht'. fold ph out in Ht'. rewrite Ht in Ht'.
    apply app_inv_head in Ht'. subst new.
    apply elem_of_app in Hin as [Hin|Hin].
    { exfalso. eapply save_log_nil_no_save; [|exact Hin].
      apply epoch_passes_saves. }
    assert (ck = make_checkpoint args scaler e (fst out) (rt_of ph)) as ->.
    { destruct (is_main_process env); [|inversion Hin].
      apply elem_of_cons in Hin as [Hin|Hin]; [congruence|].
      destruct (PrimFloat.ltb _ _); [|inversion Hin].
      apply list_elem_of_singleton in Hin. congruence. }
    cbn. repeat split.
  - intros path m w ck Hf. cbn zeta. rewrite resume_from_run, Hf. reflexivity.
  - intros w p w' Hp. now apply prepare_ok in Hp.
Qed.
End BatchesAndCheckpoints.

Lemma C4_resume_at_epoch_3 :
  let w := mkWorld (0 : @runtime toy_backend) ∅
             {["last.pth" := FileCheckpoint (toy_checkpoint (Some 7))]} [] in
  resume_from (toy_env true) short_run true "pt" "last.pth" (-1)%float w
  = (Ok (set_start_epoch 3 short_run, 0.75%float),
     mkWorld (7 : @runtime toy_backend) ∅ (files w) []).
Proof.
  intros w.
  refine (eq_trans
    (proj1 (proj2 (C4_checkpoint_components (toy_env true) short_run true
                     "pt"))
       "last.pth" (-1)%float w (toy_checkpoint (Some 7)) _) _).
  - vm_compute. reflexivity.
  - reflexivity.
Defined.

(** C4, as stated, fails without mixed precision: the checkpoint a run
    without [--amp] writes has no scaler state.  It also fails off the main
    process, where the best accuracy of the loaded checkpoint is not
    restored. *)
Lemma C4_no_scaler_without_amp :
  (exists ck,
     files (snd (main (toy_env true) short_run toy_world))
       !! checkpoint_latest (fun _ => "F") short_run
     = Some (FileCheckpoint ck)
     /\ ck_scaler ck = None)
  /\ (let w := mkWorld (0 : @runtime toy_backend) ∅
                 {["last.pth" := FileCheckpoint (toy_checkpoint None)]} [] in
      exists args w',
        resume_from (toy_env false) short_run false "pt" "last.pth"
          (-1)%float w
        = (Ok (args, (-1)%float), w')
        /\ ck_max_test_acc1 (toy_checkpoint None) = 0.75%float).
Proof.
  split.
  - vm_compute. eexists. split; reflexivity.
  - vm_compute. eexists _, _. split; reflexivity.
Qed.

(** ** Resuming a run *)

Lemma range_lookup (a b : Z) (i : nat) :
  range a b !! i
  = if decide (i < Z.to_nat (b - a))%nat then Some (a + Z.of_nat i) else None.
Proof.
  unfold range. rewrite list_lookup_fmap.
  destruct (decide (i < Z.to_nat (b - a))%nat) as [H|H].
  - rewrite lookup_seq_lt by exact H. reflexivity.
  - rewrite lookup_seq_ge by lia. reflexivity.
Qed.

Lemma elem_of_range (a b k : Z) : k ∈ range a b <-> a <= k < b.
Proof.
  unfold range. rewrite list_elem_of_fmap. split.
  - intros (i & -> & Hi). apply elem_of_seq in Hi. lia.
  - intros H. exists (Z.to_nat (k - a)). split; [lia|].
    apply elem_of_seq. lia.
Qed.

Lemma NoDup_range (a b : Z) : NoDup (range a b).
Proof.
  unfold range. apply NoDup_fmap_2; [|apply NoDup_seq].
  intros i j H. lia.
Qed.

Section MainProperties.
Context `{B : Backend}.

Lemma train_headers (env : Env) (p : Prepared) (w : World) :
  log_headers (trace (snd (train env p w)))
  = log_headers (trace w)
    ++ concat (map (fun e => [epoch_header e; "Test: "])
                 (range (start_epoch (p_args p)) (epochs (p_args p)))).
Proof.
  unfold train. rewrite !bindM_eq. cbn [retM snd].
  unfold epoch_loop. rewrite epoch_loop_headers. f_equal.
  unfold whenM. destruct (is_main_process env); [|reflexivity].
  unfold bindM, liftT, emit, write_file. cbn [trace snd].
  rewrite log_headers_app. cbn. now rewrite app_nil_r.
Qed.

Lemma main_ok (env : Env) (args : Args) (w w' : World) :
  main env args w = (Ok tt, w') ->
  exists p w1, prepare env args w = (Ok p, w1) /\ w' = snd (train env p w1).
Proof.
  intros H. unfold main in H.
  apply bind_ok_inv in H as (p & Hp & H).
  exists p, (snd (prepare env args w)). split.
  - rewrite <- Hp. apply surjective_pairing.
  - unfold lift, ok in H. rewrite bindM_eq in H. now inversion H.
Qed.

(** C1.  A run started with [--resume] that finds a checkpoint with epoch
    field [e] enters the loop with [start_epoch = e + 1], and the passes it
    then runs are, in order, the training pass and the evaluation pass of
    each of the epochs [e + 1, e + 2, ..., epochs - 1]: the [i]-th epoch
    run is [e + 1 + i], none twice, and every epoch after [e] and below
    [epochs] is among them. *)
Theorem C1_resume_epochs (env : Env) (args : Args) (path : string)
    (w w' : World) :
  resume args = Some path ->
  main env args w = (Ok tt, w') ->
  exists ck p w1,
    files w !! resume_path (pt_dir (float_str env) args) path
    = Some (FileCheckpoint ck)
    /\ prepare env args w = (Ok p, w1)
    /\ start_epoch (p_args p) = ck_epoch ck + 1
    /\ epochs (p_args p) = epochs args
    /\ w' = snd (train env p w1)
    /\ let es := range (ck_epoch ck + 1) (epochs args) in
       log_headers (trace w')
       = log_headers (trace w)
         ++ concat (map (fun e => [epoch_header e; "Test: "]) es)
       /\ (forall i : nat,
             es !! i
             = if decide (i < Z.to_nat (epochs args - (ck_epoch ck + 1)))%nat
               then Some (ck_epoch ck + 1 + Z.of_nat i) else None)
       /\ NoDup es
       /\ (forall k, k ∈ es <-> ck_epoch ck < k < epochs args).
Proof.
  intros Hres Hmain.
  apply main_ok in Hmain as (p & w1 & Hp & ->).
  pose proof (prepare_ok env args w w1 p Hp) as
    (Hrel & _ & _ & Hpt & _ & _ & Hr).
  rewrite Hres in Hr. destruct Hr as (ck & Hck & Hargs & _).
  exists ck, p, w1. rewrite Hpt in Hck.
  split; [exact Hck|]. split; [exact Hp|].
  rewrite Hargs. cbn [set_start_epoch set_num_classes start_epoch epochs].
  repeat (split; [reflexivity|]).
  split; [|split; [|split]].
  - rewrite train_headers, Hargs.
    cbn [set_start_epoch set_num_classes start_epoch epochs].
    apply setup_rel_projections in Hrel as (-> & _). reflexivity.
  - intros i. apply range_lookup.
  - apply NoDup_range.
  - intros k. rewrite elem_of_range. lia.
Qed.
End MainProperties.

Lemma C1_resume_after_epoch_2 :
  log_headers (trace (snd (main (toy_env true) resumed_run
                             world_with_checkpoint)))
  = ["Epoch: [3]"; "Test: "; "Epoch: [4]"; "Test: "].
Proof.
  destruct (C1_resume_epochs (toy_env true) resumed_run "last.pth"
              world_with_checkpoint
              (snd (main (toy_env true) resumed_run world_with_checkpoint)))
    as (ck & p & w1 & Hck & _ & _ & _ & _ & Hh & _).
  - reflexivity.
  - vm_compute. reflexivity.
  - vm_compute in Hck. injection Hck as <-. rewrite Hh. reflexivity.
Defined.

(** ** Failing at setup *)

Section FailingSetup.
Context `{B : Backend}.

Lemma fails_bindM {A C} (P : World -> Prop) (m : M A)
    (k : A -> M (result C)) :
  frames m ->
  (forall w w', P w -> setup_rel w w' -> P w') ->
  (forall a, fails_from P (k a)) ->
  fails_from P (bindM m k).
Proof.
  intros Hm HP Hk w Hw. rewrite bindM_eq. apply Hk.
  eapply HP; [exact Hw | apply Hm].
Qed.

Lemma fails_bind_ok {A C} (P : World -> Prop) (m : M (result A))
    (k : A -> M (result C)) :
  frames m ->
  (forall w w', P w -> setup_rel w w' -> P w') ->
  (forall a, fails_from P (k a)) ->
  fails_from P (bind_ok m k).
Proof.
  intros Hm HP Hk w Hw. rewrite bind_ok_eq.
  destruct (fst (m w)) as [a|e]; [|eauto].
  apply Hk. eapply HP; [exact Hw | apply Hm].
Qed.

Lemma fails_now {A C} (P : World -> Prop) (m : M (result A))
    (k : A -> M (result C)) :
  fails_from P m -> fails_from P (bind_ok m k).
Proof.
  intros Hm w Hw. rewrite bind_ok_eq.
  destruct (Hm w Hw) as [e He]. rewrite He. eauto.
Qed.

Lemma prepare_fails_on_names (env : Env) (args : Args) :
  raises (set_optimizer args) \/ raises (set_lr_scheduler args) ->
  fails_from (fun _ => True) (prepare env args).
Proof.
  intros Hbad. unfold prepare.
  assert (HP : forall w w' : World, True -> setup_rel w w' -> True) by auto.
  apply fails_bindM; [apply frames_modify | exact HP |]. intros ?.
  apply fails_bind_ok; [|exact HP|].
  { destruct (negb _); [apply frames_makedirs | apply frames_retM]. }
  intros ?. apply fails_bindM; [apply frames_modify | exact HP |].
  intros ?. apply fails_bindM; [apply frames_modify | exact HP |].
  intros ?. apply fails_bind_ok; [apply frames_load_model | exact HP |].
  intros ?.
  change (set_optimizer (set_num_classes (dataset_num_classes env) args))
    with (set_optimizer args).
  change (set_lr_scheduler (set_num_classes (dataset_num_classes env) args))
    with (set_lr_scheduler args).
  destruct (set_optimizer args) as [optimizer|e] eqn:Hopt.
  2:{ apply fails_now. intros w ?. cbn. eauto. }
  apply fails_bind_ok; [apply frames_retM | exact HP |]. intros ?.
  apply fails_bindM; [apply frames_modify | exact HP |]. intros ?.
  apply fails_bindM; [apply frames_whenM, frames_modify | exact HP |].
  intros ?. destruct Hbad as [[e He]|[e He]]; [discriminate|].
  apply fails_now. intros w ?. rewrite He. cbn. eauto.
Qed.

Lemma prepare_fails_on_existing_dir (env : Env) (args : Args) :
  is_main_process env = true ->
  resume args = None ->
  fails_from (fun w => tb_dir (float_str env) args ∈ dirs w)
    (prepare env args).
Proof.
  intros Hmain Hres. unfold prepare.
  assert (HP : forall w w' : World,
             tb_dir (float_str env) args ∈ dirs w -> setup_rel w w' ->
             tb_dir (float_str env) args ∈ dirs w').
  { intros w w' Hin (_ & Hsub & _). set_solver. }
  apply fails_bindM; [apply frames_modify | exact HP |]. intros ?.
  apply fails_bind_ok; [|exact HP|].
  { destruct (negb _); [apply frames_makedirs | apply frames_retM]. }
  intros ?. apply fails_bindM; [apply frames_modify | exact HP |].
  intros ?. apply fails_bindM; [apply frames_modify | exact HP |].
  intros ?. apply fails_bind_ok; [apply frames_load_model | exact HP |].
  intros ?. apply fails_bind_ok; [apply frames_retM | exact HP |]. intros ?.
  apply fails_bindM; [apply frames_modify | exact HP |]. intros ?.
  apply fails_bindM; [apply frames_whenM, frames_modify | exact HP |].
  intros ?. apply fails_bind_ok; [apply frames_retM | exact HP |]. intros ?.
  apply fails_bindM; [apply frames_modify | exact HP |]. intros ?.
  apply fails_now. rewrite Hmain. apply fails_now.
  intros w Hw.
  change (resume (set_num_classes (dataset_num_classes env) args))
    with (resume args).
  rewrite Hres. apply makedirs_exists. exact Hw.
Qed.

Lemma main_fails (env : Env) (args : Args) (P : World -> Prop) (w : World) :
  fails_from P (prepare env args) -> P w ->
  exists e,
    fst (main env args w) = Raise e
    /\ files (snd (main env args w)) = files w
    /\ save_log (trace (snd (main env args w))) = save_log (trace w)
    /\ filter is_pass_event (trace (snd (main env args w)))
       = filter is_pass_event (trace w).
Proof.
  intros Hf Hw. destruct (Hf w Hw) as [e He]. exists e.
  unfold main. rewrite bind_ok_eq, He. cbn [fst snd].
  split; [reflexivity|].
  pose proof (frames_prepare env args w) as Hrel.
  split; [apply Hrel|].
  apply setup_rel_projections in Hrel as (_ & ? & ?). auto.
Qed.

Lemma train_dirs (env : Env) (p : Prepared) (w : World) :
  dirs (snd (train env p w)) = dirs w.
Proof.
  unfold train. rewrite !bindM_eq. cbn [retM snd]. unfold epoch_loop.
  destruct (epoch_loop_frame env (p_args p) (p_scaler p) (p_pt_dir p)
              (range (start_epoch (p_args p)) (epochs (p_args p)))
              (p_max_test_acc1 p)
              (snd (whenM (is_main_process env)
                      (bindM (liftT (emit (EvSummaryWriter (p_tb_dir p)
                                             (start_epoch (p_args p)))))
                         (fun _ => write_file
                            (path_join3 (output_dir (p_args p)) (p_log_dir p)
                               "args.txt")
                            (FileText (args_text env (p_args p))))) w)))
    as [-> _].
  unfold whenM. destruct (is_main_process env); reflexivity.
Qed.
End FailingSetup.

Lemma C9_second_batch_starts_reset :
  exists s1 r' evs,
    for_each (train_batch short_run false) [toy_batch 0.25 0]
      (@ml_new toy_backend) (0 : @runtime toy_backend)
    = (s1, reset_net r', evs)
    /\ for_each (train_batch short_run false)
         ([toy_batch 0.25 0] ++ toy_batch 0.5 0 :: [])
         (@ml_new toy_backend) (0 : @runtime toy_backend)
       = (let '(c, r2, evs2) :=
            bind (train_batch short_run false s1 (toy_batch 0.5 0))
              (for_each (train_batch short_run false) []) (reset_net r') in
          (c, r2, evs ++ evs2)).
Proof.
  apply (proj1 (proj2 (proj2
           (@C9_reset_after_every_batch toy_backend short_run false)))).
  discriminate.
Defined.

(** ** The definitions at work *)

Example get_logdir_name_default :
  get_logdir_name (fun _ => "F") default_args
  = "mixer_b32_e90_sgd_lrF_wdF_seed42".
Proof. vm_compute. reflexivity. Qed.

Example checkpoint_latest_default :
  checkpoint_latest (fun _ => "F") default_args
  = "./logs/mixer_b32_e90_sgd_lrF_wdF_seed42/pt/checkpoint_latest.pth".
Proof. vm_compute. reflexivity. Qed.

Example path_join_absolute : path_join "./logs" "/tmp/run" = "/tmp/run".
Proof. reflexivity. Qed.

Example set_lr_scheduler_default :
  @set_lr_scheduler toy_backend default_args
  = Ok (SequentialLR (LinearLR 0.01 10) (CosineAnnealingLR 80) 10).
Proof. reflexivity. Qed.

Example range_3_5 : range 3 5 = [3; 4] /\ range 5 5 = [] /\ range 7 5 = [].
Proof. repeat split. Qed.

Example evaluate_matching_count :
  log_of (evaluate (toy_env_len (Some 1) true) short_run
            (0 : @runtime toy_backend))
  = EvCall c_model_eval :: EvLogEvery "Test: "
    :: map EvCall (evaluation_batch_calls short_run).
Proof. reflexivity. Qed.

Example evaluate_mismatching_count :
  evaluate (toy_env_len (Some 10) true) short_run (0 : @runtime toy_backend)
  = (value_of (evaluate (toy_env_len (Some 1) true) short_run 0),
     rt_of (evaluate (toy_env_len (Some 1) true) short_run 0),
     log_of (evaluate (toy_env_len (Some 1) true) short_run 0) ++ [EvWarn])
  /\ log_of (evaluate (toy_env_len (Some 10) false) short_run
               (0 : @runtime toy_backend))
     = log_of (evaluate (toy_env_len (Some 1) true) short_run 0).
Proof. split; reflexivity. Qed.

Example best_file_written_once :
  save_log (trace (snd (main (toy_env true) short_run toy_world)))
  = (checkpoint_latest (fun _ => "F") short_run, 0)
    :: (checkpoint_max_test_acc1 (fun _ => "F") short_run, 0)
    :: map (fun e => (checkpoint_latest (fun _ => "F") short_run, e))
         [1; 2; 3; 4].
Proof. vm_compute. reflexivity. Qed.

(** * Further properties *)

(** ** The framework calls of a pass, an epoch, a run *)

Section Calls.
Context `{B : Backend}.

Lemma calls_of_app (l1 l2 : list Event) :
  calls_of (l1 ++ l2) = calls_of l1 ++ calls_of l2.
Proof. apply omap_app. Qed.

Lemma calls_of_calls (cs : list Call) : calls_of (map EvCall cs) = cs.
Proof. induction cs as [|c cs IH]; [reflexivity|]. cbn. now f_equal. Qed.

Lemma calls_of_batches {X} (cs : list Call) (l : list X) :
  calls_of (concat (map (fun _ => map EvCall cs) l))
  = concat (map (fun _ => cs) l).
Proof.
  induction l as [|x l IH]; [reflexivity|].
  cbn [map concat]. now rewrite calls_of_app, calls_of_calls, IH.
Qed.

Lemma count_calls_app (P : Call -> bool) (l1 l2 : list Call) :
  count_calls P (l1 ++ l2) = (count_calls P l1 + count_calls P l2)%nat.
Proof. unfold count_calls. now rewrite List.filter_app, length_app. Qed.

Lemma count_calls_batches {X} (P : Call -> bool) (cs : list Call)
    (l : list X) :
  count_calls P (concat (map (fun _ => cs) l))
  = (length l * count_calls P cs)%nat.
Proof.
  induction l as [|x l IH]; [reflexivity|].
  cbn [map concat length]. rewrite count_calls_app, IH. lia.
Qed.

Lemma train_one_epoch_calls (env : Env) args scaler epoch r :
  calls_of (log_of (train_one_epoch env args scaler epoch r))
  = c_model_train
    :: concat (map (fun _ => training_batch_calls args scaler)
                 (dataloader_train env epoch)).
Proof.
  rewrite train_one_epoch_log.
  change (calls_of (EvCall c_model_train :: EvLogEvery ?h :: ?l))
    with (c_model_train :: calls_of l).
  now rewrite calls_of_batches.
Qed.

Lemma evaluate_calls (env : Env) args r :
  calls_of (log_of (evaluate env args r))
  = c_model_eval
    :: concat (map (fun _ => evaluation_batch_calls args)
                 (dataloader_test env)).
Proof.
  destruct (evaluate_log env args r) as (warn & Hw & ->).
  change (calls_of (EvCall c_model_eval :: EvLogEvery ?h :: ?l))
    with (c_model_eval :: calls_of l).
  rewrite calls_of_app, calls_of_batches.
  destruct Hw as [-> | ->]; cbn; now rewrite app_nil_r.
Qed.

Lemma epoch_passes_calls (env : Env) args scaler e r :
  calls_of (log_of (epoch_passes env args scaler e r))
  = epoch_calls env args scaler e.
Proof.
  unfold epoch_passes, epoch_calls, log_of, bind.
  destruct (when (distributed args) _ r) as [[[] r0] ev0] eqn:E0.
  assert (Hev0 : calls_of ev0
                 = if distributed args then [c_set_epoch e] else []).
  { destruct (distributed args); inversion E0; reflexivity. }
  pose proof (train_one_epoch_calls env args scaler e r0) as Htr.
  destruct (train_one_epoch env args scaler e r0) as [[tr r1] ev1].
  destruct tr as [[tl ta1] ta5]. cbn [log_of snd] in Htr.
  destruct (is_main_process env); torch_step;
    pose proof (evaluate_calls env args (lr_scheduler_step r1)) as Hte;
    destruct (evaluate env args (lr_scheduler_step r1)) as [[te r3] ev3];
    destruct te as [[el ea1] ea5]; cbn [log_of snd] in Hte; torch_step;
    cbn [snd]; rewrite !calls_of_app, Hev0, Htr, Hte;
    change (calls_of [EvCall c_lr_scheduler_step])
      with [c_lr_scheduler_step];
    repeat match goal with
           | |- context [calls_of [EvScalar ?a ?b ?c]] =>
               change (calls_of [EvScalar a b c]) with (@nil Call)
           end;
    change (calls_of []) with (@nil Call);
    cbn [app]; rewrite ?app_nil_r; reflexivity.
Qed.

End Calls.

Section CallCounts.
Context `{B : Backend}.

Lemma training_batch_counts (args : Args) (scaler : bool) :
  let cs := training_batch_calls args scaler in
  count_calls is_parameter_update cs = 1%nat
  /\ count_calls is_zero_grad cs = 1%nat
  /\ count_calls is_backward cs = 1%nat
  /\ count_calls is_forward cs = 1%nat
  /\ count_calls is_reset_net cs = 1%nat
  /\ count_calls is_lr_scheduler_step cs = 0%nat
  /\ set_epoch_args cs = [].
Proof.
  unfold training_batch_calls.
  destruct scaler, (clip_grad_norm args); repeat split.
Qed.

Lemma set_epoch_args_batches {X} (cs : list Call) (l : list X) :
  set_epoch_args cs = [] ->
  set_epoch_args (concat (map (fun _ => cs) l)) = [].
Proof. apply omap_concat_const_nil. Qed.

Lemma epoch_calls_counts (env : Env) args scaler e :
  count_calls is_lr_scheduler_step (epoch_calls env args scaler e) = 1%nat
  /\ set_epoch_args (epoch_calls env args scaler e)
     = if distributed args then [e] else [].
Proof.
  destruct (training_batch_counts args scaler) as (_ & _ & _ & _ & _ & Hl & Hs).
  cbn zeta in Hl, Hs. unfold epoch_calls. split.
  - rewrite count_calls_app.
    change (count_calls is_lr_scheduler_step (c_model_train :: ?l ++ ?l'))
      with (count_calls is_lr_scheduler_step (l ++ l')).
    rewrite count_calls_app, count_calls_batches, Hl.
    change (count_calls is_lr_scheduler_step
              (c_lr_scheduler_step :: c_model_eval :: ?l))
      with (S (count_calls is_lr_scheduler_step l)).
    rewrite count_calls_batches.
    change (count_calls is_lr_scheduler_step (evaluation_batch_calls args))
      with 0%nat.
    destruct (distributed args); cbn; lia.
  - unfold set_epoch_args. rewrite omap_app.
    change (omap ?f (c_model_train :: ?l ++ ?l')) with (omap f (l ++ l')).
    rewrite omap_app.
    change (omap ?f (c_lr_scheduler_step :: c_model_eval :: ?l))
      with (omap f l).
    fold set_epoch_args. rewrite !set_epoch_args_batches by (exact Hs || reflexivity).
    destruct (distributed args); reflexivity.
Qed.

Lemma epoch_loop_calls (env : Env) args scaler pt_dir (l : list Z) m w :
  calls_of (trace (snd (for_eachM (epoch_body env args scaler pt_dir) l m w)))
  = calls_of (trace w) ++ concat (map (epoch_calls env args scaler) l).
Proof.
  revert m w. induction l as [|e l IH]; intros m w.
  - cbn. now rewrite app_nil_r.
  - cbn [for_eachM map concat]. unfold bindM.
    destruct (epoch_body_trace env args scaler pt_dir m e w) as (Hrt & _ & Ht).
    destruct (epoch_body env args scaler pt_dir m e w) as [m1 w1].
    cbn [snd fst] in Ht, Hrt. rewrite IH, Ht, !calls_of_app.
    rewrite epoch_passes_calls.
    assert (Hs : forall (b : bool) ck ck',
               calls_of (if b then EvSave (latest_path pt_dir) ck
                                   :: (if PrimFloat.ltb m
                                            (test_acc1_of
                                               (value_of
                                                  (epoch_passes env args scaler
                                                     e (rt w))))
                                       then [EvSave (best_path pt_dir) ck']
                                       else [])
                         else []) = []).
    { intros [] ck ck'; [destruct (PrimFloat.ltb _ _)|]; reflexivity. }
    rewrite Hs, app_nil_r, <- app_assoc. reflexivity.
Qed.
End CallCounts.

Section PassesAndRuns.
Context `{B : Backend}.

Lemma length_range (a b : Z) : length (range a b) = Z.to_nat (b - a).
Proof. unfold range. now rewrite length_map, length_seq. Qed.

Lemma concat_const_length {X Y} (cs : list Y) (l l' : list X) :
  length l = length l' ->
  concat (map (fun _ => cs) l) = concat (map (fun _ => cs) l').
Proof.
  revert l'. induction l as [|x l IH]; intros [|x' l'] H; try discriminate.
  - reflexivity.
  - cbn. f_equal. apply IH. now injection H.
Qed.

Lemma train_calls (env : Env) (p : Prepared) (w : World) :
  calls_of (trace (snd (train env p w)))
  = calls_of (trace w)
    ++ concat (map (epoch_calls env (p_args p) (p_scaler p))
                 (range (start_epoch (p_args p)) (epochs (p_args p)))).
Proof.
  unfold train. rewrite !bindM_eq. cbn [retM snd].
  unfold epoch_loop. rewrite epoch_loop_calls. f_equal.
  unfold whenM. destruct (is_main_process env); [|reflexivity].
  unfold bindM, liftT, emit, write_file. cbn [trace snd].
  rewrite calls_of_app. cbn. now rewrite app_nil_r.
Qed.

Lemma epochs_calls_counts (env : Env) args scaler (es : list Z) :
  count_calls is_lr_scheduler_step
    (concat (map (epoch_calls env args scaler) es)) = length es
  /\ set_epoch_args (concat (map (epoch_calls env args scaler) es))
     = if distributed args then es else [].
Proof.
  induction es as [|e es [IHc IHs]].
  - destruct (distributed args); split; reflexivity.
  - destruct (epoch_calls_counts env args scaler e) as [Hc Hs].
    cbn [map concat length]. split.
    + rewrite count_calls_app, Hc, IHc. reflexivity.
    + unfold set_epoch_args in *. rewrite omap_app, Hs, IHs.
      destruct (distributed args); reflexivity.
Qed.

(** X1.  A training pass makes, for every batch its loader yields, exactly one
    forward call, one [zero_grad], one backward call, one parameter update
    ([optimizer.step] or [scaler.step]) and one [reset_net]: gradients are
    never accumulated over batches and no batch is skipped. *)
Theorem X_one_update_per_batch (env : Env) (args : Args) (scaler : bool)
    (epoch : Z) (r : runtime) :
  let cs := calls_of (log_of (train_one_epoch env args scaler epoch r)) in
  let n := length (dataloader_train env epoch) in
  count_calls is_forward cs = n
  /\ count_calls is_zero_grad cs = n
  /\ count_calls is_backward cs = n
  /\ count_calls is_parameter_update cs = n
  /\ count_calls is_reset_net cs = n.
Proof.
  cbn zeta. rewrite train_one_epoch_calls.
  destruct (training_batch_counts args scaler)
    as (Hu & Hz & Hb & Hf & Hr & _).
  cbn zeta in Hu, Hz, Hb, Hf, Hr.
  repeat split;
    match goal with
    | |- count_calls ?P (c_model_train :: ?l) = _ =>
        change (count_calls P (c_model_train :: l)) with (count_calls P l)
    end;
    rewrite count_calls_batches, ?Hu, ?Hz, ?Hb, ?Hf, ?Hr; lia.
Qed.

(** X2.  An evaluation pass never trains: among its framework calls there is no
    [zero_grad], backward, clipping, optimizer or scaler step, scheduler
    step, sampler call or switch to training mode; it makes one forward
    call and one [reset_net] per batch. *)
Theorem X_evaluation_never_trains (env : Env) (args : Args) (r : runtime) :
  let cs := calls_of (log_of (evaluate env args r)) in
  Forall (fun c => is_training_call c = false) cs
  /\ count_calls is_forward cs = length (dataloader_test env)
  /\ count_calls is_reset_net cs = length (dataloader_test env).
Proof.
  cbn zeta. rewrite evaluate_calls. split; [|split].
  - constructor; [reflexivity|].
    induction (dataloader_test env) as [|b l IH]; [constructor|].
    cbn [map concat]. apply Forall_app. split; [|exact IH].
    repeat constructor.
  - change (count_calls is_forward (c_model_eval :: ?l))
      with (count_calls is_forward l).
    rewrite count_calls_batches. cbn. lia.
  - change (count_calls is_reset_net (c_model_eval :: ?l))
      with (count_calls is_reset_net l).
    rewrite count_calls_batches. cbn. lia.
Qed.

(** X3.  Over a run the scheduler is stepped exactly once per epoch run,
    [max 0 (epochs - start_epoch)] times in all, and [sampler.set_epoch] is
    called with each epoch's index, in order, in distributed mode and not
    at all otherwise. *)
Theorem X_scheduler_once_per_epoch (env : Env) (p : Prepared) (w : World) :
  exists added,
    calls_of (trace (snd (train env p w))) = calls_of (trace w) ++ added
    /\ count_calls is_lr_scheduler_step added
       = Z.to_nat (epochs (p_args p) - start_epoch (p_args p))
    /\ set_epoch_args added
       = if distributed (p_args p)
         then range (start_epoch (p_args p)) (epochs (p_args p))
         else [].
Proof.
  eexists. split; [apply train_calls|].
  destruct (epochs_calls_counts env (p_args p) (p_scaler p)
              (range (start_epoch (p_args p)) (epochs (p_args p))))
    as [Hc Hs].
  rewrite Hc, Hs, length_range. split; reflexivity.
Qed.

(** X4.  Lock step.  The framework calls of the epoch loop depend on the
    arguments and on how many batches the loaders yield, and on nothing
    else: two processes whose loaders yield equally many batches make the
    same calls in the same order, whether or not either is the main
    process and whatever state, files or best accuracy they start from. *)
Theorem X_lock_step (env1 env2 : Env) (args : Args) (scaler : bool)
    (pt1 pt2 : string) (m1 m2 : float) (w1 w2 : World) :
  (forall e, length (dataloader_train env1 e)
             = length (dataloader_train env2 e)) ->
  length (dataloader_test env1) = length (dataloader_test env2) ->
  exists added,
    calls_of (trace (snd (epoch_loop env1 args scaler pt1 m1 w1)))
    = calls_of (trace w1) ++ added
    /\ calls_of (trace (snd (epoch_loop env2 args scaler pt2 m2 w2)))
       = calls_of (trace w2) ++ added.
Proof.
  intros Htrain Htest. unfold epoch_loop. eexists. split.
  - apply epoch_loop_calls.
  - rewrite epoch_loop_calls. f_equal. f_equal.
    apply map_ext. intros e. unfold epoch_calls.
    rewrite (concat_const_length _ _ _ (Htrain e)).
    rewrite (concat_const_length _ _ _ Htest). reflexivity.
Qed.
End PassesAndRuns.

Lemma X_lock_step_main_and_worker :
  exists added,
    calls_of (trace (snd (epoch_loop (toy_env true) short_run false "pt"
                            (-1)%float toy_world)))
    = calls_of (trace toy_world) ++ added
    /\ calls_of (trace (snd (epoch_loop (toy_env false) short_run false "pt"
                               0.75%float world_with_checkpoint)))
       = calls_of (trace world_with_checkpoint) ++ added.
Proof.
  apply (X_lock_step (toy_env true) (toy_env false)).
  - intros e. reflexivity.
  - reflexivity.
Defined.

(** ** Saving and resuming *)

Lemma range_app (a b c : Z) :
  a <= b <= c -> range a c = range a b ++ range b c.
Proof.
  intros H. apply list_eq. intros i.
  rewrite lookup_app, !range_lookup, length_range.
  repeat match goal with |- context [decide ?P] => destruct (decide P) end;
    try lia; try reflexivity.
  f_equal. lia.
Qed.

Lemma range_last (a b : Z) : a < b -> range a b = range a (b - 1) ++ [b - 1].
Proof.
  intros H. rewrite (range_app a (b - 1) b) by lia. f_equal.
  unfold range. replace (b - (b - 1)) with 1 by lia.
  change (Z.to_nat 1) with 1%nat. cbn [seq map]. f_equal. lia.
Qed.

Lemma range_empty (a b : Z) : b <= a -> range a b = [].
Proof. intros H. unfold range. now replace (Z.to_nat (b - a)) with 0%nat by lia. Qed.

Section SaveAndResume.
Context `{B : Backend}.

Lemma epoch_body_latest (env : Env) args scaler pt_dir m e w :
  is_main_process env = true ->
  let out := epoch_body env args scaler pt_dir m e w in
  files (snd out) !! latest_path pt_dir
  = Some (FileCheckpoint
            (make_checkpoint args scaler e (fst out) (rt (snd out)))).
Proof.
  intros Hmain. cbn zeta. rewrite epoch_body_run, Hmain.
  cbn [fst snd files rt].
  destruct (PrimFloat.ltb _ _).
  - rewrite lookup_insert_ne by (apply not_eq_sym, latest_ne_best).
    apply lookup_insert_eq.
  - apply lookup_insert_eq.
Qed.

(** X5.  Round trip of a checkpoint.  On the main process, resuming with
    [--resume latest] from what an epoch [e] left loads exactly the state
    dicts taken at the end of that epoch and continues at epoch [e + 1]
    with the best accuracy as it stood after that epoch.  The run that
    resumes needs no more than the run that saved had: resuming with a
    scaler from a checkpoint saved without one is a [KeyError], raised once
    the model, optimizer and scheduler states have already been loaded. *)
Theorem X_save_then_resume (env : Env) (args args' : Args)
    (scaler scaler' : bool) (pt_dir : string) (m m0 : float) (e : Z)
    (w : World) :
  is_main_process env = true ->
  let out := epoch_body env args scaler pt_dir m e w in
  let w1 := snd out in
  let ck := make_checkpoint args scaler e (fst out) (rt w1) in
  resume_from env args' scaler' pt_dir "latest" m0 w1
  = if scaler' && negb scaler then
      (Raise (KeyError "scaler"),
       mkWorld (restore ck (rt w1)) (dirs w1) (files w1) (trace w1))
    else
      (Ok (set_start_epoch (e + 1) args', fst out),
       mkWorld
         (if scaler'
          then scaler_load_state_dict (scaler_state_dict (rt w1))
                 (restore ck (rt w1))
          else restore ck (rt w1))
         (dirs w1) (files w1) (trace w1)).
Proof.
  intros Hmain out w1 ck.
  rewrite resume_from_run. change (resume_path pt_dir "latest")
    with (latest_path pt_dir).
  unfold w1, out. rewrite (epoch_body_latest env args scaler pt_dir m e w Hmain).
  fold out. fold w1. fold ck. cbn zeta. rewrite Hmain.
  destruct scaler', scaler; reflexivity.
Qed.

Lemma loop_latest (env : Env) args scaler pt_dir (a b : Z) m w :
  is_main_process env = true -> a < b ->
  let out := for_eachM (epoch_body env args scaler pt_dir) (range a b) m w in
  files (snd out) !! latest_path pt_dir
  = Some (FileCheckpoint
            (make_checkpoint args scaler (b - 1) (fst out) (rt (snd out)))).
Proof.
  intros Hmain Hab. cbn zeta. rewrite (range_last a b Hab), for_eachM_app.
  cbn [for_eachM]. rewrite bindM_eq. cbn [retM fst snd].
  apply (epoch_body_latest env args scaler pt_dir _ (b - 1) _ Hmain).
Qed.

(** X6.  Resuming continues where the loop stood.  On the main process, after
    the epochs [a .. b-1] (at least one), [--resume latest] with the same
    scaler setting succeeds and sets [start_epoch] to [b] and the best
    accuracy to the loop's; when the loop had reached [epochs], the resumed
    loop has no epoch left and changes nothing. *)
Theorem X_resume_continues (env : Env) (args args' : Args) (scaler : bool)
    (pt_dir : string) (a b : Z) (m m0 : float) (w : World) :
  is_main_process env = true ->
  a < b ->
  let out := for_eachM (epoch_body env args scaler pt_dir) (range a b) m w in
  exists w2,
    resume_from env args' scaler pt_dir "latest" m0 (snd out)
    = (Ok (set_start_epoch b args', fst out), w2)
    /\ files w2 = files (snd out)
    /\ (epochs args' <= b ->
        epoch_loop env (set_start_epoch b args') scaler pt_dir (fst out) w2
        = (fst out, w2)).
Proof.
  intros Hmain Hab out.
  rewrite resume_from_run. change (resume_path pt_dir "latest")
    with (latest_path pt_dir).
  unfold out. rewrite (loop_latest env args scaler pt_dir a b m w Hmain Hab).
  fold out. cbn zeta. rewrite Hmain.
  replace (ck_epoch (make_checkpoint args scaler (b - 1) (fst out)
                       (rt (snd out))) + 1) with b by (cbn; lia).
  cbn [ck_max_test_acc1 make_checkpoint ck_scaler].
  destruct scaler; eexists; (split; [reflexivity|]); (split; [reflexivity|]);
    intros Hb; unfold epoch_loop;
    cbn [set_start_epoch start_epoch epochs];
    rewrite range_empty by exact Hb; reflexivity.
Qed.

(** X7.  The best file stays consistent with the marker.  If the best file,
    when it exists, holds a checkpoint whose accuracy is [max_test_acc1],
    then the same is true after any number of epochs, on the main process
    and on any other. *)
Theorem X_best_file_invariant (env : Env) (args : Args) (scaler : bool)
    (pt_dir : string) (l : list Z) (m : float) (w : World) :
  best_consistent pt_dir m w ->
  let out := for_eachM (epoch_body env args scaler pt_dir) l m w in
  best_consistent pt_dir (fst out) (snd out).
Proof.
  revert m w. induction l as [|e l IH]; intros m w Hinv; [exact Hinv|].
  cbn zeta. cbn [for_eachM]. rewrite bindM_eq. apply IH.
  rewrite epoch_body_run. unfold best_consistent in *.
  destruct (is_main_process env); cbn [fst snd files]; [|exact Hinv].
  destruct (PrimFloat.ltb _ _); cbn [fst snd files]; intros ck Hck.
  - rewrite lookup_insert_eq in Hck. injection Hck as <-. reflexivity.
  - rewrite lookup_insert_ne in Hck by apply latest_ne_best. auto.
Qed.

(** X8.  What the resume block reads.  Of the checkpoint it reads the
    entries [model], [optimizer], [lr_scheduler] and [epoch], the entry
    [scaler] when the run has a scaler, and [max_test_acc1] on the main
    process, and nothing else: with any other checkpoint in the file that
    agrees on these, the outcome of the block and the run-time state it
    restores are the same.  The stored [args] are never read; the state
    dicts that are loaded are the library's and may carry
    hyperparameters. *)
Theorem X_resume_reads (env : Env) (args : Args) (scaler : bool)
    (pt_dir path : string) (m : float) (w : World) (ck ck' : Checkpoint) :
  files w !! resume_path pt_dir path = Some (FileCheckpoint ck) ->
  ck_model ck' = ck_model ck ->
  ck_optimizer ck' = ck_optimizer ck ->
  ck_lr_scheduler ck' = ck_lr_scheduler ck ->
  ck_epoch ck' = ck_epoch ck ->
  (scaler = true -> ck_scaler ck' = ck_scaler ck) ->
  (is_main_process env = true -> ck_max_test_acc1 ck' = ck_max_test_acc1 ck) ->
  let w' := mkWorld (rt w) (dirs w)
              (<[resume_path pt_dir path := FileCheckpoint ck']> (files w))
              (trace w) in
  fst (resume_from env args scaler pt_dir path m w')
  = fst (resume_from env args scaler pt_dir path m w)
  /\ rt (snd (resume_from env args scaler pt_dir path m w'))
     = rt (snd (resume_from env args scaler pt_dir path m w)).
Proof.
  intros Hck Hm Ho Hl He Hs Hb w'. rewrite !resume_from_run, Hck.
  unfold w'. cbn [files rt]. rewrite lookup_insert_eq. cbn zeta.
  unfold restore. rewrite Hm, Ho, Hl, He.
  destruct (is_main_process env); [rewrite (Hb eq_refl)|];
    (destruct scaler; [rewrite (Hs eq_refl); destruct (ck_scaler ck)|]);
    split; reflexivity.
Qed.
End SaveAndResume.

Lemma X_save_then_resume_with_amp :
  fst (resume_from (toy_env true) short_run true "pt" "latest" (-1)%float
         (snd (epoch_body (toy_env true) short_run false "pt" (-1)%float 0
                 toy_world)))
  = Raise (KeyError "scaler").
Proof.
  rewrite (X_save_then_resume (toy_env true) short_run short_run false true
             "pt" (-1)%float (-1)%float 0 toy_world eq_refl).
  reflexivity.
Defined.

Lemma X_resume_after_two_epochs :
  exists w2,
    resume_from (toy_env true) short_run false "pt" "latest" (-1)%float
      (snd (for_eachM (epoch_body (toy_env true) short_run false "pt")
              (range 0 2) (-1)%float toy_world))
    = (Ok (set_start_epoch 2 short_run, 0.5%float), w2).
Proof.
  destruct (X_resume_continues (toy_env true) short_run short_run false "pt"
              0 2 (-1)%float (-1)%float toy_world eq_refl eq_refl)
    as (w2 & H & _).
  exists w2. exact H.
Defined.

Lemma X_best_file_after_fresh_run :
  exists ck,
    files (snd (for_eachM (epoch_body (toy_env true) short_run false "pt")
                  (range 0 5) (-1)%float toy_world))
      !! best_path "pt" = Some (FileCheckpoint ck)
    /\ ck_max_test_acc1 ck = 0.5%float.
Proof.
  eexists. split; [vm_compute; reflexivity|].
  refine (X_best_file_invariant (toy_env true) short_run false "pt"
            (range 0 5) (-1)%float toy_world _ _ _).
  - intros ck H. vm_compute in H. discriminate.
  - vm_compute. reflexivity.
Defined.

Lemma X_resume_with_other_stored_args :
  fst (resume_from (toy_env false) short_run false "pt" "last.pth"
         (-1)%float
         (mkWorld (0 : @runtime toy_backend) ∅
            (<["last.pth" := FileCheckpoint
                 (@Build_Checkpoint toy_backend 7 7 7 2 default_args
                    0.25%float (Some 3))]>
               (files world_with_checkpoint)) []))
  = fst (resume_from (toy_env false) short_run false "pt" "last.pth"
           (-1)%float world_with_checkpoint).
Proof.
  apply (X_resume_reads (toy_env false) short_run false "pt"
           "last.pth" (-1)%float world_with_checkpoint (toy_checkpoint None)
           (@Build_Checkpoint toy_backend 7 7 7 2 default_args 0.25%float
              (Some 3)));
    try reflexivity; discriminate.
Defined.

(** ** What a process other than the main one writes *)

Section Footprint.
Context `{B : Backend}.

Lemma epoch_loop_other_files (env : Env) args scaler pt_dir (l : list Z) m w
    (path : string) :
  path <> latest_path pt_dir -> path <> best_path pt_dir ->
  files (snd (for_eachM (epoch_body env args scaler pt_dir) l m w)) !! path
  = files w !! path.
Proof.
  intros Hl Hb. revert m w.
  induction l as [|e l IH]; intros m w; [reflexivity|].
  cbn [for_eachM]. rewrite bindM_eq, IH, epoch_body_run.
  destruct (is_main_process env); cbn [snd files]; [|reflexivity].
  destruct (PrimFloat.ltb _ _);
    rewrite ?lookup_insert_ne by (apply not_eq_sym; assumption); reflexivity.
Qed.


Lemma prepare_paths (env : Env) (args : Args) (w w' : World) (p : Prepared) :
  prepare env args w = (Ok p, w') ->
  output_dir (p_args p) = output_dir args
  /\ epochs (p_args p) = epochs args
  /\ p_log_dir p = get_logdir_name (float_str env) args
  /\ p_pt_dir p = pt_dir (float_str env) args
  /\ p_tb_dir p = tb_dir (float_str env) args.
Proof.
  intros Hp. apply prepare_ok in Hp. cbn zeta in Hp.
  destruct Hp as (_ & _ & Hlog & Hpt & Htb & _ & Hres).
  assert (Hargs : output_dir (p_args p) = output_dir args
                  /\ epochs (p_args p) = epochs args).
  { destruct (resume args).
    - destruct Hres as (ck & _ & -> & _). split; reflexivity.
    - destruct Hres as (-> & _). split; reflexivity. }
  destruct Hargs as [Ho He].
  repeat split; assumption.
Qed.

Lemma silent_cons (ev : Event) (l : list Event) :
  is_main_only_event ev = false ->
  filter is_main_only_event (ev :: l) = filter is_main_only_event l.
Proof.
  intros H. rewrite filter_cons.
  destruct (decide _) as [Hd|]; [|reflexivity].
  rewrite H in Hd. destruct Hd.
Qed.

Lemma silent_calls (cs : list Call) :
  filter is_main_only_event (map EvCall cs) = [].
Proof.
  induction cs as [|c cs IH]; [reflexivity|].
  cbn [map]. now rewrite silent_cons.
Qed.

Lemma silent_batches {X} (cs : list Call) (l : list X) :
  filter is_main_only_event (concat (map (fun _ => map EvCall cs) l)) = [].
Proof.
  induction l as [|x l IH]; [reflexivity|].
  cbn [map concat]. now rewrite filter_app, silent_calls, IH.
Qed.

Lemma train_one_epoch_silent (env : Env) args scaler epoch r :
  filter is_main_only_event (log_of (train_one_epoch env args scaler epoch r))
  = [].
Proof.
  rewrite train_one_epoch_log, !silent_cons by reflexivity.
  apply silent_batches.
Qed.

Lemma evaluate_silent (env : Env) args r :
  filter is_main_only_event (log_of (evaluate env args r)) = [].
Proof.
  destruct (evaluate_log env args r) as (warn & Hw & ->).
  rewrite !silent_cons by reflexivity.
  rewrite filter_app, silent_batches.
  destruct Hw as [-> | ->]; reflexivity.
Qed.

Lemma worker_passes_silent (env : Env) args scaler e r :
  is_main_process env = false ->
  filter is_main_only_event (log_of (epoch_passes env args scaler e r)) = [].
Proof.
  intros Hmain. unfold epoch_passes, log_of, bind. rewrite Hmain.
  destruct (when (distributed args) _ r) as [[[] r0] ev0] eqn:E0.
  assert (Hev0 : filter is_main_only_event ev0 = []).
  { destruct (distributed args); inversion E0; reflexivity. }
  pose proof (train_one_epoch_silent env args scaler e r0) as Htr.
  destruct (train_one_epoch env args scaler e r0) as [[tr r1] ev1].
  destruct tr as [[tl ta1] ta5]. cbn [log_of snd] in Htr.
  torch_step.
  pose proof (evaluate_silent env args (lr_scheduler_step r1)) as Hte.
  destruct (evaluate env args (lr_scheduler_step r1)) as [[te r3] ev3].
  destruct te as [[el ea1] ea5]. cbn [log_of snd] in Hte. torch_step.
  cbn [snd]. rewrite !filter_app, Hev0, Htr, Hte. reflexivity.
Qed.

Lemma worker_loop (env : Env) args scaler pt_dir (l : list Z) m w :
  is_main_process env = false ->
  filter is_main_only_event
    (trace (snd (for_eachM (epoch_body env args scaler pt_dir) l m w)))
  = filter is_main_only_event (trace w).
Proof.
  intros Hmain. revert m w.
  induction l as [|e l IH]; intros m w; [reflexivity|].
  cbn [for_eachM]. rewrite bindM_eq, IH.
  destruct (epoch_body_trace env args scaler pt_dir m e w) as (_ & _ & ->).
  rewrite Hmain, app_nil_r, filter_app, worker_passes_silent by exact Hmain.
  apply app_nil_r.
Qed.

Lemma train_worker (env : Env) (p : Prepared) (w : World) :
  is_main_process env = false ->
  files (snd (train env p w)) = files w
  /\ filter is_main_only_event (trace (snd (train env p w)))
     = filter is_main_only_event (trace w).
Proof.
  intros Hmain. unfold train. rewrite !bindM_eq. cbn [retM snd].
  unfold epoch_loop, whenM. rewrite Hmain. cbn [retM snd]. split.
  - apply epoch_loop_frame. exact Hmain.
  - apply worker_loop. exact Hmain.
Qed.

Lemma setup_rel_silent (w w' : World) :
  setup_rel w w' ->
  filter is_main_only_event (trace w') = filter is_main_only_event (trace w).
Proof.
  intros (_ & _ & evs & -> & HF). rewrite filter_app.
  assert (filter is_main_only_event evs = []) as ->.
  { induction HF as [|ev evs [p ->] _ IH]; [reflexivity|].
    now rewrite silent_cons. }
  apply app_nil_r.
Qed.

(** X10.  A process that is not the main one writes nothing of the run.
    Whatever the arguments and however [main] ends there, none of the
    writes of [main]'s own code happens: no [args.txt], no checkpoint
    file (no file of the run is created or changed), and no checkpoint
    write, scalar or summary writer occurs.  The dataset download of
    [load_data], which every process runs, is the library's and is not
    among the files of the run. *)
Theorem X_worker_writes_nothing (env : Env) (args : Args) (w : World) :
  is_main_process env = false ->
  let out := snd (main env args w) in
  files out = files w
  /\ filter is_main_only_event (trace out)
     = filter is_main_only_event (trace w).
Proof.
  intros Hmain. cbn zeta. unfold main. rewrite bind_ok_eq.
  pose proof (frames_prepare env args w) as Hrel.
  pose proof (setup_rel_silent _ _ Hrel) as Hs.
  destruct Hrel as (Hf & _).
  destruct (prepare env args w) as [[p|e] w1]; cbn [fst snd] in *.
  - unfold lift. rewrite bindM_eq. cbn [ok retM snd].
    destruct (train_worker env p w1 Hmain) as [Hfw Hsw].
    rewrite Hfw, Hsw. auto.
  - auto.
Qed.
End Footprint.

Lemma X_worker_of_short_run :
  let out := snd (main (toy_env false) short_run toy_world) in
  files out = ∅ /\ filter is_main_only_event (trace out) = [].
Proof.
  apply (X_worker_writes_nothing (toy_env false) short_run toy_world).
  reflexivity.
Defined.

(** ** Errors at setup *)

Section SetupErrors.
Context `{B : Backend}.

Lemma makedirs_fresh (path : string) (exist_ok : bool) (w : World) :
  files w !! path = None ->
  exist_ok = true \/ path ∉ dirs w ->
  exists w',
    makedirs path exist_ok w = (Ok tt, w')
    /\ rt w' = rt w /\ files w' = files w
    /\ path ∈ dirs w' /\ dirs w ⊆ dirs w'.
Proof.
  intros Hnone Hok. unfold makedirs. rewrite Hnone.
  rewrite bool_decide_eq_false_2 by (intros [x Hx]; discriminate).
  destruct (bool_decide (path ∈ dirs w)) eqn:Hin.
  - apply bool_decide_eq_true_1 in Hin.
    destruct Hok as [-> | Hni]; [|contradiction].
    exists w. repeat split; auto.
  - eexists. split; [reflexivity|]. cbn [rt files dirs].
    repeat split; [apply elem_of_union_l, elem_of_singleton_2; reflexivity|].
    apply union_subseteq_r.
Qed.

Lemma bind_ok_raise {A C} (m : M (result A)) (k : A -> M (result C)) w e :
  fst (m w) = Raise e -> bind_ok m k w = (Raise e, snd (m w)).
Proof. intros H. now rewrite bind_ok_eq, H. Qed.

Lemma bind_ok_ok {A C} (m : M (result A)) (k : A -> M (result C)) w a w1 :
  m w = (Ok a, w1) -> bind_ok m k w = k a w1.
Proof. intros H. now rewrite bind_ok_eq, H. Qed.

Lemma main_dirs (env : Env) (args : Args) (w : World) :
  dirs (snd (main env args w)) = dirs (snd (prepare env args w)).
Proof.
  unfold main. rewrite bind_ok_eq.
  destruct (prepare env args w) as [[p|e] w1]; cbn [fst snd]; [|reflexivity].
  unfold lift. rewrite bindM_eq. cbn [ok retM snd]. apply train_dirs.
Qed.

Lemma main_raise (env : Env) (args : Args) (w : World) e :
  fst (prepare env args w) = Raise e ->
  main env args w = (Raise e, snd (prepare env args w)).
Proof. intros H. unfold main. now apply bind_ok_raise. Qed.

(** the first step of [main]: the seed, then the output directory *)
Lemma prepare_output_dir (env : Env) (args : Args) (w : World) :
  files w !! output_dir args = None ->
  exists w1,
    (if negb (String.eqb (output_dir args) "")
     then makedirs (output_dir args) true else ok tt)
      (mkWorld (seed_all (seed args) (rt w)) (dirs w) (files w) (trace w))
    = (Ok tt, w1)
    /\ rt w1 = seed_all (seed args) (rt w)
    /\ files w1 = files w
    /\ (output_dir args <> "" -> output_dir args ∈ dirs w1).
Proof.
  intros Hnone. destruct (String.eqb_spec (output_dir args) "") as [He|Hne].
  - cbn [negb]. eexists. split; [reflexivity|]. cbn.
    repeat split. intros Hne. contradiction.
  - cbn [negb].
    destruct (makedirs_fresh (output_dir args) true
                (mkWorld (seed_all (seed args) (rt w)) (dirs w) (files w)
                   (trace w)) Hnone (or_introl eq_refl))
      as (w1 & E & Hr & Hf & Hd & _).
    exists w1. auto.
Qed.

(** X11.  The order of the checks at setup.  From a state in which
    [output_dir] is not the name of a file, [main] creates [output_dir]
    before it looks at any name; once the device and the data are set up,
    an unknown [--model] is a [KeyError], whatever the optimizer and
    scheduler names are; with a known model an error of [set_optimizer] (an
    unsupported name, or what the constructor raises) is reported once
    the model is built, and an error of [set_lr_scheduler] once the
    optimizer (and the scaler under [--amp]) are built. *)
Theorem X_setup_errors_in_order (env : Env) (args : Args) (w : World) :
  files w !! output_dir args = None ->
  let out := main env args w in
  let args1 := set_num_classes (dataset_num_classes env) args in
  let r0 := load_data args
              (select_device (device args) (seed_all (seed args) (rt w))) in
  let r1 := build_model args1 r0 in
  (output_dir args <> "" -> output_dir args ∈ dirs (snd out))
  /\ (model args <> "mixer" ->
      fst out = Raise (KeyError (model args)) /\ rt (snd out) = r0)
  /\ (model args = "mixer" ->
      forall e, set_optimizer args = Raise e ->
      fst out = Raise e /\ rt (snd out) = r1)
  /\ (model args = "mixer" ->
      forall o e, set_optimizer args = Ok o ->
      set_lr_scheduler args = Raise e ->
      fst out = Raise e
      /\ rt (snd out)
         = (if amp args then build_scaler else fun r => r)
             (build_optimizer o r1)).
Proof.
  intros Hnone. cbn zeta.
  destruct (prepare_output_dir env args w Hnone) as (w1 & E1 & Hr1 & Hf1 & Hd1).
  pose proof (eq_refl (prepare env args w)) as Hp.
  unfold prepare at 2 in Hp. rewrite bindM_eq in Hp.
  cbn [modify fst snd] in Hp. rewrite (bind_ok_ok _ _ _ _ _ E1) in Hp.
  rewrite bindM_eq in Hp. cbn [modify fst snd] in Hp.
  rewrite bindM_eq in Hp. cbn [modify fst snd rt dirs files trace] in Hp.
  set (w2 := mkWorld (load_data args (select_device (device args) (rt w1)))
               (dirs w1) (files w1) (trace w1)) in Hp.
  match type of Hp with
  | _ = bind_ok ?m ?k w2 => assert (F : frames (bind_ok m k))
  end.
  { apply frames_bind_ok; [apply frames_load_model|]. intros _.
    apply frames_bind_ok; [apply frames_retM|]. intros optimizer.
    apply frames_bindM; [apply frames_modify|]. intros _.
    apply frames_bindM; [apply frames_whenM, frames_modify|]. intros _.
    apply frames_bind_ok; [apply frames_retM|]. intros sched.
    apply frames_bindM; [apply frames_modify|]. intros _.
    apply frames_bind_ok.
    { destruct (is_main_process env); [|apply frames_retM].
      apply frames_bind_ok; [apply frames_makedirs|]. intros _.
      apply frames_makedirs. }
    intros _. apply frames_bind_ok.
    { destruct (resume _); [apply frames_resume_from | apply frames_retM]. }
    intros [args' m]. apply frames_retM. }
  split.
  { intros Hne. rewrite main_dirs, Hp.
    destruct (F w2) as (_ & Hsub & _). apply Hsub, Hd1, Hne. }
  unfold load_model in Hp.
  change (model (set_num_classes (dataset_num_classes env) args))
    with (model args) in Hp.
  change (set_optimizer (set_num_classes (dataset_num_classes env) args))
    with (set_optimizer args) in Hp.
  change (set_lr_scheduler (set_num_classes (dataset_num_classes env) args))
    with (set_lr_scheduler args) in Hp.
  change (amp (set_num_classes (dataset_num_classes env) args))
    with (amp args) in Hp.
  split.
  { intros Hmodel.
    destruct (String.eqb_spec (model args) "mixer") as [?|_]; [contradiction|].
    rewrite bind_ok_raise with (e := KeyError (model args)) in Hp
      by reflexivity.
    rewrite main_raise with (e := KeyError (model args))
      by (rewrite Hp; reflexivity).
    rewrite Hp. cbn [fst snd throw retM]. unfold w2. cbn [rt].
    rewrite Hr1. auto. }
  split.
  { intros Hmodel e Hopt.
    destruct (String.eqb_spec (model args) "mixer") as [_|?]; [|contradiction].
    rewrite bind_ok_ok with (a := tt)
      (w1 := mkWorld (build_model
                        (set_num_classes (dataset_num_classes env) args)
                        (rt w2)) (dirs w2) (files w2) (trace w2)) in Hp
      by reflexivity.
    rewrite Hopt in Hp.
    rewrite bind_ok_raise with (e := e) in Hp by reflexivity.
    rewrite main_raise with (e := e) by (rewrite Hp; reflexivity).
    rewrite Hp. cbn [fst snd retM rt]. unfold w2. cbn [rt].
    rewrite Hr1. auto. }
  intros Hmodel o e Hopt Hsched.
  destruct (String.eqb_spec (model args) "mixer") as [_|?]; [|contradiction].
  rewrite bind_ok_ok with (a := tt)
    (w1 := mkWorld (build_model
                      (set_num_classes (dataset_num_classes env) args)
                      (rt w2)) (dirs w2) (files w2) (trace w2)) in Hp
    by reflexivity.
  rewrite Hopt in Hp.
  rewrite bind_ok_ok with (a := o)
    (w1 := mkWorld (build_model
                      (set_num_classes (dataset_num_classes env) args)
                      (rt w2)) (dirs w2) (files w2) (trace w2)) in Hp
    by reflexivity.
  rewrite !bindM_eq in Hp. rewrite Hsched in Hp.
  rewrite bind_ok_raise with (e := e) in Hp by reflexivity.
  rewrite main_raise with (e := e) by (rewrite Hp; reflexivity).
  rewrite Hp. cbn [fst snd retM modify rt]. split; [reflexivity|].
  unfold w2. cbn [rt]. rewrite Hr1. unfold whenM.
  destruct (amp args); reflexivity.
Qed.
(** [main] up to the run directories, when the three names are supported *)
Lemma prepare_to_run_dirs (env : Env) (args : Args) (o : OptimizerSpec)
    (s : SchedulerSpec) (w : World) :
  model args = "mixer" ->
  set_optimizer args = Ok o ->
  set_lr_scheduler args = Ok s ->
  files w !! output_dir args = None ->
  let args1 := set_num_classes (dataset_num_classes env) args in
  exists w1,
    rt w1 = built env args o s (rt w)
    /\ files w1 = files w
    /\ dirs w ⊆ dirs w1
    /\ prepare env args w
       = bind_ok
           (if is_main_process env then
              bind_ok (makedirs (tb_dir (float_str env) args)
                         (is_not_None (resume args)))
                (fun _ => makedirs (pt_dir (float_str env) args)
                            (is_not_None (resume args)))
            else ok tt)
           (fun _ =>
              bind_ok
                match resume args with
                | Some path =>
                    resume_from env args1 (amp args)
                      (pt_dir (float_str env) args) path (-1)%float
                | None => ok (args1, (-1)%float)
                end
                (fun r =>
                   let (args2, max_test_acc1) := r : Args * float in
                   ok {| p_args := args2; p_scaler := amp args;
                         p_log_dir := get_logdir_name (float_str env) args;
                         p_pt_dir := pt_dir (float_str env) args;
                         p_tb_dir := tb_dir (float_str env) args;
                         p_max_test_acc1 := max_test_acc1 |})) w1.
Proof.
  intros Hmodel Hopt Hsched Hnone. cbn zeta.
  destruct (prepare_output_dir env args w Hnone) as (w1 & E1 & Hr1 & Hf1 & _).
  assert (Hd1 : dirs w ⊆ dirs w1).
  { destruct (negb _).
    - pose proof (frames_makedirs (output_dir args) true
                    (mkWorld (seed_all (seed args) (rt w)) (dirs w) (files w)
                       (trace w))) as (_ & Hsub & _).
      rewrite E1 in Hsub. exact Hsub.
    - injection E1 as <-. reflexivity. }
  pose proof (eq_refl (prepare env args w)) as Hp.
  unfold prepare at 2 in Hp. rewrite bindM_eq in Hp.
  cbn [modify fst snd] in Hp. rewrite (bind_ok_ok _ _ _ _ _ E1) in Hp.
  unfold load_model in Hp.
  change (model (set_num_classes (dataset_num_classes env) args))
    with (model args) in Hp.
  change (set_optimizer (set_num_classes (dataset_num_classes env) args))
    with (set_optimizer args) in Hp.
  change (set_lr_scheduler (set_num_classes (dataset_num_classes env) args))
    with (set_lr_scheduler args) in Hp.
  change (amp (set_num_classes (dataset_num_classes env) args))
    with (amp args) in Hp.
  rewrite Hmodel, String.eqb_refl, Hopt, Hsched in Hp.
  exists (mkWorld (built env args o s (rt w)) (dirs w1) (files w1) (trace w1)).
  cbn [rt files dirs]. split; [reflexivity|]. split; [exact Hf1|].
  split; [exact Hd1|].
  rewrite Hp. unfold built. rewrite <- Hr1.
  destruct (amp args); reflexivity.
Qed.


Lemma makedirs_refuses (path : string) (w : World) :
  path ∈ dirs w ->
  makedirs path false w = (Raise (FileExistsError path), w).
Proof.
  intros H. unfold makedirs.
  destruct (bool_decide (is_Some _)); [reflexivity|].
  now rewrite bool_decide_eq_true_2 by exact H.
Qed.

(** a run without [--resume] that gets as far as the run directories and
    finds [tb_dir] there *)
Lemma run_refused (env : Env) (args : Args) (o : OptimizerSpec)
    (s : SchedulerSpec) (w : World) :
  is_main_process env = true ->
  model args = "mixer" ->
  set_optimizer args = Ok o ->
  set_lr_scheduler args = Ok s ->
  resume args = None ->
  files w !! output_dir args = None ->
  tb_dir (float_str env) args ∈ dirs w ->
  fst (main env args w) = Raise (FileExistsError (tb_dir (float_str env) args)).
Proof.
  intros Hmain Hmodel Hopt Hsched Hres Hout Htb.
  destruct (prepare_to_run_dirs env args o s w Hmodel Hopt Hsched Hout)
    as (w1 & _ & _ & Hd1 & Hp).
  rewrite Hmain, Hres in Hp. cbn [is_not_None] in Hp.
  pose proof (makedirs_refuses (tb_dir (float_str env) args) w1
                (Hd1 _ Htb)) as E.
  rewrite bind_ok_raise
    with (e := FileExistsError (tb_dir (float_str env) args)) in Hp.
  2:{ rewrite bind_ok_raise
        with (e := FileExistsError (tb_dir (float_str env) args));
        [reflexivity | now rewrite E]. }
  rewrite main_raise
    with (e := FileExistsError (tb_dir (float_str env) args))
    by (rewrite Hp; reflexivity).
  reflexivity.
Qed.

End SetupErrors.

Lemma X_unknown_model_and_optimizer :
  fst (main (toy_env true) (set_model "resnet" (set_opt "adam" short_run))
         toy_world)
  = Raise (KeyError "resnet").
Proof.
  destruct (X_setup_errors_in_order (toy_env true)
              (set_model "resnet" (set_opt "adam" short_run)) toy_world
              eq_refl) as (_ & H & _).
  apply H. discriminate.
Defined.


(** ** Paths and names of a run *)

Lemma last_ascii_app (s t : string) :
  t <> "" -> last_ascii (s +:+ t) = last_ascii t.
Proof.
  intros Ht. induction s as [|c s IH]; [reflexivity|].
  assert (Hne : s +:+ t <> "") by (destruct s; [exact Ht | discriminate]).
  change (String c s +:+ t) with (String c (s +:+ t)).
  destruct (s +:+ t); [contradiction | exact IH].
Qed.

Lemma path_join_last (a b : string) :
  b <> "" -> last_ascii (path_join a b) = last_ascii b.
Proof.
  intros Hb. unfold path_join.
  destruct (starts_with_sep b); [reflexivity|].
  destruct (_ || _)%bool.
  - apply last_ascii_app, Hb.
  - rewrite last_ascii_app by (destruct b; discriminate).
    apply (last_ascii_app "/" b), Hb.
Qed.

Lemma args_txt_ne_checkpoints (a b : string) :
  path_join a "args.txt" <> latest_path b
  /\ path_join a "args.txt" <> best_path b.
Proof.
  unfold latest_path, best_path.
  split; intros H%(f_equal last_ascii);
    rewrite !path_join_last in H by discriminate; discriminate.
Qed.

Lemma string_length_app (s t : string) :
  String.length (s +:+ t) = (String.length s + String.length t)%nat.
Proof.
  induction s as [|c s IH]; [reflexivity|].
  change (String c s +:+ t) with (String c (s +:+ t)).
  cbn [String.length]. now rewrite IH.
Qed.

Lemma append_cancel_r (s1 s2 t : string) : s1 +:+ t = s2 +:+ t -> s1 = s2.
Proof.
  revert s2. induction s1 as [|c s1 IH]; intros [|d s2] H.
  - reflexivity.
  - apply (f_equal String.length) in H.
    rewrite !string_length_app in H. cbn [String.length] in H. lia.
  - apply (f_equal String.length) in H.
    rewrite !string_length_app in H. cbn [String.length] in H. lia.
  - change (String c (s1 +:+ t) = String d (s2 +:+ t)) in H.
    injection H as -> H. f_equal. apply IH, H.
Qed.

Section PathsAndNames.
Context `{B : Backend}.

(** X13.  What [args.txt] records.  On the main process a run that ends without
    an exception leaves in [args.txt] the text of the arguments as [main]
    has changed them, with [num_classes] set from the dataset and, when
    resuming, [start_epoch] set from the checkpoint, and not the arguments
    as given; no checkpoint write of the run goes to that file. *)
Theorem X_args_file (env : Env) (args : Args) (w w' : World) :
  is_main_process env = true ->
  main env args w = (Ok tt, w') ->
  let args1 := set_num_classes (dataset_num_classes env) args in
  let recorded :=
    match resume args with
    | Some path =>
        match files w !! resume_path (pt_dir (float_str env) args) path with
        | Some (FileCheckpoint ck) => set_start_epoch (ck_epoch ck + 1) args1
        | _ => args1
        end
    | None => args1
    end in
  files w' !! args_txt (float_str env) args
  = Some (FileText (args_text env recorded))
  /\ args_txt (float_str env) args <> checkpoint_latest (float_str env) args
  /\ args_txt (float_str env) args
     <> checkpoint_max_test_acc1 (float_str env) args.
Proof.
  intros Hmain Hrun. cbn zeta.
  destruct (args_txt_ne_checkpoints
              (path_join (output_dir args)
                 (get_logdir_name (float_str env) args))
              (pt_dir (float_str env) args)) as [Hl Hb].
  split; [|split; [exact Hl | exact Hb]].
  apply main_ok in Hrun as (p & w1 & Hp & ->).
  destruct (prepare_paths env args w w1 p Hp) as (Ho & _ & Hlog & Hpt & _).
  assert (Hargs : p_args p
                  = match resume args with
                    | Some path =>
                        match files w
                              !! resume_path (pt_dir (float_str env) args) path
                        with
                        | Some (FileCheckpoint ck) =>
                            set_start_epoch (ck_epoch ck + 1)
                              (set_num_classes (dataset_num_classes env) args)
                        | _ => set_num_classes (dataset_num_classes env) args
                        end
                    | None => set_num_classes (dataset_num_classes env) args
                    end).
  { apply prepare_ok in Hp. cbn zeta in Hp.
    destruct Hp as (_ & _ & _ & _ & _ & _ & Hres).
    destruct (resume args) as [path|].
    - destruct Hres as (ck & Hck & -> & _). rewrite Hpt in Hck.
      now rewrite Hck.
    - destruct Hres as [-> _]. reflexivity. }
  rewrite <- Hargs.
  unfold train. rewrite !bindM_eq. cbn [retM snd]. unfold epoch_loop.
  rewrite epoch_loop_other_files.
  - unfold whenM. rewrite Hmain, bindM_eq. cbn [write_file snd files].
    rewrite Ho, Hlog. apply lookup_insert_eq.
  - rewrite Hpt. exact Hl.
  - rewrite Hpt. exact Hb.
Qed.

(** X14.  The optimizer name is matched without regard to case, the run
    directory is named after it as given.  Two spellings of a supported
    optimizer that differ only in case build the same optimizer, yet give
    the run directory two names, so that a run started under one spelling
    is not found by [--resume latest] under the other. *)
Theorem X_optimizer_spelling (env : Env) (args : Args) (o1 o2 : string) :
  lower o1 = lower o2 ->
  succeeds (set_optimizer (set_opt o1 args)) ->
  set_optimizer (set_opt o2 args) = set_optimizer (set_opt o1 args)
  /\ (o1 <> o2 ->
      get_logdir_name (float_str env) (set_opt o1 args)
      <> get_logdir_name (float_str env) (set_opt o2 args)).
Proof.
  intros Hlow [o Ho]. split.
  - revert Ho. unfold set_optimizer. cbn [set_opt opt lr momentum weight_decay].
    rewrite <- Hlow.
    destruct (String.eqb (lower o1) "sgd"); [reflexivity|].
    destruct (String.eqb (lower o1) "adamw"); [reflexivity|]. discriminate.
  - intros Hne Heq. apply Hne. unfold get_logdir_name in Heq.
    cbn [set_opt model batch_size epochs opt lr weight_decay seed] in Heq.
    do 6 apply append_inj_r in Heq.
    apply append_cancel_r in Heq. exact Heq.
Qed.
End PathsAndNames.

Lemma X_args_file_of_short_run :
  files (snd (main (toy_env true) short_run toy_world))
    !! args_txt (fun _ => "F") short_run
  = Some (FileText "args").
Proof.
  destruct (X_args_file (toy_env true) short_run toy_world
              (snd (main (toy_env true) short_run toy_world)) eq_refl)
    as (H & _).
  - vm_compute. reflexivity.
  - exact H.
Defined.

Lemma X_sgd_in_capitals :
  @set_optimizer toy_backend (set_opt "sgd" short_run)
  = @set_optimizer toy_backend (set_opt "SGD" short_run)
  /\ get_logdir_name (fun _ => "F") (set_opt "SGD" short_run)
     <> get_logdir_name (fun _ => "F") (set_opt "sgd" short_run).
Proof.
  destruct (X_optimizer_spelling (toy_env true) short_run "SGD" "sgd" eq_refl)
    as [H1 H2].
  - eexists. reflexivity.
  - split; [exact H1 | apply H2; discriminate].
Defined.

(** * Setup, schedule and shared directories *)

(** ** Supported names *)

Section SupportedNames.
Context `{B : Backend}.

(** C6 (as amended).  [set_optimizer] raises [NotImplementedError] for
    every optimizer name that is not [sgd] or [adamw] up to case;
    [set_lr_scheduler] raises it for every scheduler name that is not
    [step], [cosa] or [exp] up to case and, when [lr_warmup_epochs > 0],
    for every warmup method that is not exactly [linear] or [constant]
    (unless the constructor of the primary scheduler, which is called
    first, has raised already).  For names inside the sets neither raises
    an error of its own: each returns what the constructors return, the
    object when they accept the arguments and their exception when they
    do not.  Whenever either raises, [main] ends in an exception without a
    single framework call, pass header or warning having occurred: no
    training step has run. *)
Theorem C6_unsupported_names (env : Env) (args : Args) :
  (if spec_name_in optimizer_names (opt args)
   then set_optimizer args
        = construct optimizer_error (requested_optimizer args)
   else set_optimizer args
        = Raise (NotImplementedError
                   ("Not supported optimizer " +:+ opt args)))
  /\ (if spec_name_in scheduler_names (lr_scheduler args) then
        if (0 <? lr_warmup_epochs args)
           && negb (spec_exact_name_in warmup_names (lr_warmup_method args))
        then raises (set_lr_scheduler args)
             /\ (scheduler_error (primary_scheduler args) = None ->
                 set_lr_scheduler args
                 = Raise (NotImplementedError
                            ("Not supported lr_warmup_method "
                               +:+ lr_warmup_method args)))
        else set_lr_scheduler args
             = (let* main_lr_scheduler :=
                  construct scheduler_error (primary_scheduler args) in
                if 0 <? lr_warmup_epochs args then
                  let* warmup_lr_scheduler :=
                    construct scheduler_error (warmup_scheduler args) in
                  construct scheduler_error
                    (SequentialLR warmup_lr_scheduler main_lr_scheduler
                       (lr_warmup_epochs args))
                else Ok main_lr_scheduler)%result
      else set_lr_scheduler args
           = Raise (NotImplementedError
                      ("Not supported lr_scheduler " +:+ lr_scheduler args)))
  /\ (forall w,
        raises (set_optimizer args) \/ raises (set_lr_scheduler args) ->
        exists e,
          fst (main env args w) = Raise e
          /\ filter is_pass_event (trace (snd (main env args w)))
             = filter is_pass_event (trace w)).
Proof.
  split; [|split].
  - rewrite set_optimizer_spec.
    destruct (spec_name_in optimizer_names (opt args)); reflexivity.
  - rewrite set_lr_scheduler_spec. unfold spec_exact_name_in.
    destruct (spec_name_in scheduler_names _); [|reflexivity].
    destruct (0 <? lr_warmup_epochs args); cbn [andb]; [|reflexivity].
    destruct (existsb _ _); cbn [negb]; [reflexivity|].
    split.
    + destruct (construct scheduler_error _); eexists; reflexivity.
    + intros H. now rewrite construct_accepts by exact H.
  - intros w Hbad.
    destruct (main_fails env args (fun _ => True) w
                (prepare_fails_on_names env args Hbad) I)
      as (e & He & _ & _ & Hp).
    eauto.
Qed.
End SupportedNames.

Lemma C6_adam_fails_at_setup :
  exists e,
    fst (main (toy_env true) (set_opt "adam" short_run) toy_world) = Raise e
    /\ filter is_pass_event
         (trace (snd (main (toy_env true) (set_opt "adam" short_run)
                        toy_world)))
       = filter is_pass_event (trace toy_world).
Proof.
  apply (proj2 (proj2 (C6_unsupported_names (toy_env true)
                         (set_opt "adam" short_run)))).
  left. eexists. reflexivity.
Defined.

(** C6, as stated, fails for names inside the sets: with [--opt sgd] and
    a negative learning rate the constructor of the optimizer rejects
    its argument, and setup ends in its [ValueError]. *)
Lemma C6_negative_lr_rejected :
  let args := set_lr (-1)%float short_run in
  spec_name_in optimizer_names (opt args) = true
  /\ spec_name_in scheduler_names (lr_scheduler args) = true
  /\ spec_exact_name_in warmup_names (lr_warmup_method args) = true
  /\ @set_optimizer toy_backend args
     = Raise (ValueError "Invalid learning rate")
  /\ fst (main (toy_env true) args toy_world)
     = Raise (ValueError "Invalid learning rate").
Proof. cbv zeta. repeat split; vm_compute; reflexivity. Qed.

Example C6_accepts_any_case :
  succeeds (@set_optimizer toy_backend short_run)
  /\ lower "AdamW" = "adamw"
  /\ spec_name_in optimizer_names "AdamW" = true
  /\ spec_name_in optimizer_names "adam" = false
  /\ spec_name_in scheduler_names "CoSa" = true
  /\ spec_exact_name_in warmup_names "Linear" = false.
Proof. repeat split. eexists. reflexivity. Qed.

(** ** The schedule that is built, and when it is stepped *)

Section Schedule.
Context `{B : Backend}.



End Schedule.



(** ** Runs that share a directory *)

Section SharedDirectory.
Context `{B : Backend}.

Lemma train_args_file (env : Env) (p : Prepared) (w : World) :
  is_main_process env = true ->
  files (snd (train env p w))
    !! path_join3 (output_dir (p_args p)) (p_log_dir p) "args.txt"
  = Some (FileText (args_text env (p_args p))).
Proof.
  intros Hmain.
  destruct (args_txt_ne_checkpoints
              (path_join (output_dir (p_args p)) (p_log_dir p))
              (p_pt_dir p)) as [Hl Hb].
  unfold train. rewrite !bindM_eq. cbn [retM snd]. unfold epoch_loop.
  rewrite epoch_loop_other_files by assumption.
  unfold whenM. rewrite Hmain, bindM_eq. cbn [write_file snd files].
  apply lookup_insert_eq.
Qed.

Lemma train_latest (env : Env) (p : Prepared) (w : World) :
  is_main_process env = true ->
  start_epoch (p_args p) < epochs (p_args p) ->
  exists ck,
    files (snd (train env p w)) !! latest_path (p_pt_dir p)
    = Some (FileCheckpoint ck)
    /\ ck_args ck = p_args p
    /\ ck_epoch ck = epochs (p_args p) - 1.
Proof.
  intros Hmain Hepochs. unfold train. rewrite !bindM_eq.
  cbn [retM snd]. unfold epoch_loop.
  match goal with
  | |- context [for_eachM ?body (range ?a ?b) ?m ?w0] =>
      pose proof (loop_latest env (p_args p) (p_scaler p) (p_pt_dir p)
                    a b m w0 Hmain Hepochs) as Hl
  end.
  cbn zeta in Hl. eexists. split; [exact Hl|]. split; reflexivity.
Qed.

(** C10 (as amended).  The run directory name is a function of the seven
    fields [model], [batch_size], [epochs], [opt], [lr], [weight_decay] and
    [seed]: two configurations that agree on them get the same name
    whatever else differs, and with the same [output_dir] the same
    checkpoint, log and [args.txt] paths.  Whether the second run
    overwrites the files of the first depends on [--resume].  Started
    without it on the main process, where the first run has completed, it
    ends in an exception at setup with no file written, and when its setup
    gets as far as the run directories the exception is the
    [FileExistsError] of [os.makedirs].  A second run that ends without an
    exception (which there takes [--resume]) has, on the main process,
    overwritten [args.txt] with its own arguments and, if it ran an
    epoch, the latest checkpoint with its own. *)
Theorem C10_run_directory (env : Env) (a1 a2 : Args) :
  model a1 = model a2 ->
  batch_size a1 = batch_size a2 ->
  epochs a1 = epochs a2 ->
  opt a1 = opt a2 ->
  lr a1 = lr a2 ->
  weight_decay a1 = weight_decay a2 ->
  seed a1 = seed a2 ->
  get_logdir_name (float_str env) a1 = get_logdir_name (float_str env) a2
  /\ (output_dir a1 = output_dir a2 ->
      pt_dir (float_str env) a1 = pt_dir (float_str env) a2
      /\ tb_dir (float_str env) a1 = tb_dir (float_str env) a2
      /\ args_txt (float_str env) a1 = args_txt (float_str env) a2
      /\ checkpoint_latest (float_str env) a1
         = checkpoint_latest (float_str env) a2
      /\ checkpoint_max_test_acc1 (float_str env) a1
         = checkpoint_max_test_acc1 (float_str env) a2)
  /\ (output_dir a1 = output_dir a2 ->
      is_main_process env = true ->
      resume a2 = None ->
      forall w w1 w2,
        main env a1 w = (Ok tt, w1) ->
        dirs w1 ⊆ dirs w2 ->
        (exists e,
           fst (main env a2 w2) = Raise e
           /\ files (snd (main env a2 w2)) = files w2
           /\ save_log (trace (snd (main env a2 w2))) = save_log (trace w2))
        /\ (forall o s,
              set_optimizer a2 = Ok o ->
              set_lr_scheduler a2 = Ok s ->
              files w2 !! output_dir a2 = None ->
              fst (main env a2 w2)
              = Raise (FileExistsError (tb_dir (float_str env) a1))))
  /\ (output_dir a1 = output_dir a2 ->
      is_main_process env = true ->
      forall w2 w3,
        main env a2 w2 = (Ok tt, w3) ->
        exists p w',
          prepare env a2 w2 = (Ok p, w')
          /\ T (p_args p) = T a2
          /\ files w3 !! args_txt (float_str env) a1
             = Some (FileText (args_text env (p_args p)))
          /\ (start_epoch (p_args p) < epochs a2 ->
              exists ck,
                files w3 !! checkpoint_latest (float_str env) a1
                = Some (FileCheckpoint ck)
                /\ ck_args ck = p_args p
                /\ ck_epoch ck = epochs a2 - 1)).
Proof.
  intros Hm Hb He Ho Hl Hw Hs.
  assert (Hname : get_logdir_name (float_str env) a1
                  = get_logdir_name (float_str env) a2).
  { unfold get_logdir_name. now rewrite Hm, Hb, He, Ho, Hl, Hw, Hs. }
  split; [exact Hname|]. split; [|split].
  - intros Hout.
    unfold checkpoint_latest, checkpoint_max_test_acc1, pt_dir, tb_dir,
      args_txt.
    now rewrite Hname, Hout.
  - intros Hout Hmain Hres w w1 w2 Hrun Hsub.
    assert (Htbeq : tb_dir (float_str env) a1 = tb_dir (float_str env) a2).
    { unfold tb_dir. now rewrite Hname, Hout. }
    pose proof Hrun as Hrun'.
    apply main_ok in Hrun as (p & w0 & Hp & ->).
    pose proof Hp as Hp'.
    apply prepare_ok in Hp as (_ & _ & _ & _ & Htb & Hdirs & _).
    destruct (Hdirs Hmain) as [Hin _]. rewrite Htb in Hin.
    assert (Hin2 : tb_dir (float_str env) a2 ∈ dirs w2).
    { apply Hsub. rewrite train_dirs. unfold tb_dir.
      rewrite <- Hname, <- Hout. exact Hin. }
    split.
    + destruct (main_fails env a2 _ w2
                  (prepare_fails_on_existing_dir env a2 Hmain Hres) Hin2)
        as (e & He' & Hf & Hsv & _).
      eauto.
    + intros o s Hopt Hsched Hnone. rewrite Htbeq.
      apply (run_refused env a2 o s w2 Hmain); try assumption.
      rewrite <- Hm.
      destruct (String.eqb_spec (model a1) "mixer") as [Hmix|Hmix];
        [exact Hmix|].
      exfalso.
      assert (Hf : fails_from (fun _ => True) (prepare env a1)).
      { unfold prepare.
        assert (HP : forall w w' : World, True -> setup_rel w w' -> True)
          by auto.
        apply fails_bindM; [apply frames_modify | exact HP |]. intros ?.
        apply fails_bind_ok; [|exact HP|].
        { destruct (negb _); [apply frames_makedirs | apply frames_retM]. }
        intros ?. apply fails_bindM; [apply frames_modify | exact HP |].
        intros ?. apply fails_bindM; [apply frames_modify | exact HP |].
        intros ?. apply fails_now. intros w' _. unfold load_model.
        change (model (set_num_classes (dataset_num_classes env) a1))
          with (model a1).
        apply String.eqb_neq in Hmix. rewrite Hmix. cbn. eauto. }
      destruct (Hf w I) as [e Hraise]. rewrite Hp' in Hraise. discriminate.
  - intros Hout Hmain w2 w3 Hrun.
    apply main_ok in Hrun as (p & w' & Hp & ->).
    exists p, w'. split; [exact Hp|].
    destruct (prepare_paths env a2 w2 w' p Hp) as (Hpo & Hpe & Hlog & Hpt & _).
    split.
    { apply prepare_ok in Hp. cbn zeta in Hp.
      destruct Hp as (_ & _ & _ & _ & _ & _ & Hres).
      destruct (resume a2).
      - destruct Hres as (ck & _ & -> & _). reflexivity.
      - destruct Hres as (-> & _). reflexivity. }
    split.
    { pose proof (train_args_file env p w' Hmain) as Hfile.
      rewrite Hpo, Hlog in Hfile. unfold args_txt.
      rewrite Hname, Hout. exact Hfile. }
    intros Hlt. rewrite <- Hpe in Hlt.
    destruct (train_latest env p w' Hmain Hlt) as (ck & Hfile & Hargs & Hep).
    exists ck. rewrite Hpt, Hpe in *.
    unfold checkpoint_latest, pt_dir. rewrite Hname, Hout.
    split; [exact Hfile|]. split; [exact Hargs | exact Hep].
Qed.
End SharedDirectory.

Lemma C10_same_name_other_T :
  get_logdir_name (fun _ => "F") short_run
  = get_logdir_name (fun _ => "F") (set_T 8 short_run)
  /\ exists ck,
       files (snd (main (toy_env true) (set_T 8 resumed_run)
                     world_after_first_run))
         !! checkpoint_latest (fun _ => "F") short_run
       = Some (FileCheckpoint ck)
       /\ T (ck_args ck) = 8
       /\ ck_epoch ck = 4.
Proof.
  destruct (C10_run_directory (toy_env true) short_run
              (set_T 8 resumed_run)
              eq_refl eq_refl eq_refl eq_refl eq_refl eq_refl eq_refl)
    as (Hname & _ & _ & Hover).
  split; [exact Hname|].
  destruct (Hover eq_refl eq_refl world_after_first_run
              (snd (main (toy_env true) (set_T 8 resumed_run)
                      world_after_first_run)))
    as (p & w' & Hp & HT & _ & Hlatest).
  { vm_compute. reflexivity. }
  assert (Hstart : start_epoch (p_args p) = 3).
  { apply prepare_ok in Hp. cbn zeta in Hp.
    destruct Hp as (_ & _ & _ & Hpt & _ & _ & ck & Hck & -> & _).
    rewrite Hpt in Hck. vm_compute in Hck. injection Hck as <-.
    reflexivity. }
  destruct Hlatest as (ck & Hf & Ha & He); [rewrite Hstart; reflexivity|].
  exists ck. split; [exact Hf|]. split; [|exact He].
  rewrite Ha. exact HT.
Defined.

(** C10, as stated, fails in its last clause: a second run that agrees on
    the seven fields and differs in [T], started without [--resume] after
    the first has completed, stops at directory creation and leaves every
    file of the first run as it was. *)
Lemma C10_second_run_overwrites_nothing :
  let w1 := snd (main (toy_env true) short_run toy_world) in
  let second := main (toy_env true) (set_T 8 short_run) w1 in
  fst (main (toy_env true) short_run toy_world) = Ok tt
  /\ get_logdir_name (fun _ => "F") short_run
     = get_logdir_name (fun _ => "F") (set_T 8 short_run)
  /\ T short_run <> T (set_T 8 short_run)
  /\ is_Some (files w1 !! checkpoint_latest (fun _ => "F") short_run)
  /\ fst second
     = Raise (FileExistsError (tb_dir (fun _ => "F") (set_T 8 short_run)))
  /\ files (snd second) = files w1
  /\ trace (snd second) = trace w1.
Proof.
  cbv zeta. split; [vm_compute; reflexivity|].
  split; [vm_compute; reflexivity|].
  split; [cbn; lia|].
  split; [vm_compute; eexists; reflexivity|].
  split; [vm_compute; reflexivity|].
  split; vm_compute; reflexivity.
Qed.
